(** * VibeHunt API: a shallow embedding of [main.py]

    The service keeps three MongoDB collections ([post], [comment], [vote])
    and exposes request handlers over them.  The handlers are embedded as
    computations in a state-and-exception monad over a [World]: the global
    store handle [db], the clock read by [datetime.now(timezone.utc)] and
    the ObjectIds the driver generates for inserted documents. *)

From Stdlib Require Import ZArith List String Ascii Bool Lia Permutation Sorted.
Import ListNotations.
Local Open Scope string_scope.
Local Open Scope list_scope.
Local Open Scope Z_scope.

Set Implicit Arguments.

(** ** Python values *)

(** A [str] is a sequence of characters; a character is taken in the
    Latin-1 range, so [ascii] holds its code point. *)
Definition str := string.

(** [str.isspace] on one character: the code points Python counts as
    whitespace, below 256. *)
Definition isspace (c : ascii) : bool :=
  let n := Z.of_N (N_of_ascii c) in
  ((9 <=? n) && (n <=? 13)) || ((28 <=? n) && (n <=? 32))
  || (n =? 133) || (n =? 160).

Fixpoint lstrip (s : str) : str :=
  match s with
  | EmptyString => EmptyString
  | String c s' => if isspace c then lstrip s' else s
  end.

Fixpoint rstrip (s : str) : str :=
  match s with
  | EmptyString => EmptyString
  | String c s' =>
      match rstrip s' with
      | EmptyString => if isspace c then EmptyString else String c EmptyString
      | r => String c r
      end
  end.

(** [s.strip()] *)
Definition strip (s : str) : str := rstrip (lstrip s).

(** Truthiness of a [str]: the empty string is false. *)
Definition truthy (s : str) : bool :=
  match s with EmptyString => false | _ => true end.

(** [x or ""] for an [Optional[str]] *)
Definition or_empty (x : option str) : str :=
  match x with
  | Some s => if truthy s then s else ""
  | None => ""
  end.

(** [s or None] *)
Definition or_None (s : str) : option str :=
  if truthy s then Some s else None.

(** [(x or None)] for an [Optional[str]] *)
Definition opt_or_None (x : option str) : option str :=
  match x with
  | Some s => or_None s
  | None => None
  end.

(** A [datetime] is its position on the UTC time line, in milliseconds (the
    resolution at which the store keeps and compares dates); a [timedelta]
    is a difference of two. *)
Definition datetime := Z.

Definition timedelta_days (d : Z) : Z := d * 86400000.
Definition timedelta_hours (h : Z) : Z := h * 3600000.
Definition timedelta_seconds (s : Z) : Z := s * 1000.

(** [bson.ObjectId]: twelve bytes, read as one number. *)
Definition ObjectId := N.

(** ** Documents *)

Module Post.
Record t := mk {
  _id : ObjectId;
  title : str;
  tagline : str;
  maker : option str;
  url : option str;
  votes_count : Z;
  comments_count : Z;
  created_at : datetime;
  updated_at : datetime
}.

(** ["$inc": {"votes_count": d}, "$set": {"updated_at": now}] *)
Definition inc_votes_count (d : Z) (now : datetime) (p : t) : t :=
  mk (_id p) (title p) (tagline p) (maker p) (url p)
     (votes_count p + d) (comments_count p) (created_at p) now.

(** ["$inc": {"comments_count": d}, "$set": {"updated_at": now}] *)
Definition inc_comments_count (d : Z) (now : datetime) (p : t) : t :=
  mk (_id p) (title p) (tagline p) (maker p) (url p)
     (votes_count p) (comments_count p + d) (created_at p) now.
End Post.

Module Vote.
Record t := mk {
  _id : ObjectId;
  post_id : ObjectId;
  device_id : str;
  created_at : datetime;
  updated_at : datetime
}.
End Vote.

Module Comment.
Record t := mk {
  _id : ObjectId;
  post_id : ObjectId;
  author : option str;
  content : str;
  device_id : option str;
  created_at : datetime;
  updated_at : datetime
}.
End Comment.

(** Every stored document carries the primary key [_id]. *)
Class Document (D : Type) := doc_id : D -> ObjectId.
#[global] Instance Post_Document : Document Post.t := Post._id.
#[global] Instance Vote_Document : Document Vote.t := Vote._id.
#[global] Instance Comment_Document : Document Comment.t := Comment._id.

(** ** The store *)

(** The database: one list of documents per collection, in insertion
    order (the order in which an unsorted [find] yields them). *)
Record Store := mkStore {
  post : list Post.t;
  comment : list Comment.t;
  vote : list Vote.t
}.

Definition empty_store : Store := mkStore [] [] [].

(** The world a handler runs in.  [db] is the module-level handle ([None]
    when no database is configured).  [clock k] is what the [k]-th call of
    [datetime.now(timezone.utc)] returns and [ticks] counts the calls made
    so far; [objectids k] is the [k]-th ObjectId the driver generates for a
    document inserted without [_id], and [issued] counts those. *)
Record World := mkWorld {
  db : option Store;
  clock : nat -> datetime;
  ticks : nat;
  objectids : nat -> ObjectId;
  issued : nat
}.

Definition set_db (w : World) (d : option Store) : World :=
  mkWorld d (clock w) (ticks w) (objectids w) (issued w).

(** ** Exceptions and the handler monad *)

Inductive exn :=
| HTTPException (status_code : Z) (detail : str)
| TypeError          (* subscripting [None] *)
| DuplicateKeyError  (* insert of an [_id] the collection already holds *)
| BulkWriteError     (* the same, raised by [insert_many] *)
| AttributeError.    (* a method called on [None] *)

Inductive outcome (A : Type) :=
| Return (a : A)
| Raise (e : exn).
Arguments Return {A} a.
Arguments Raise {A} e.

Definition M (A : Type) := World -> outcome A * World.

Definition ret {A} (a : A) : M A := fun w => (Return a, w).

Definition bind {A B} (m : M A) (f : A -> M B) : M B :=
  fun w => match m w with
           | (Return a, w') => f a w'
           | (Raise e, w') => (Raise e, w')
           end.

Definition raise {A} (e : exn) : M A := fun w => (Raise e, w).

(** [try: m  except Exception: h] *)
Definition try_except {A} (m : M A) (h : M A) : M A :=
  fun w => match m w with
           | (Return a, w') => (Return a, w')
           | (Raise _, w') => h w'
           end.

Declare Scope handler_scope.
Delimit Scope handler_scope with handler.
Notation "x <- m ;; k" := (bind m (fun x => k))
  (at level 61, m at next level, right associativity) : handler_scope.
Notation "m ;; k" := (bind m (fun _ => k))
  (at level 61, right associativity) : handler_scope.
Local Open Scope handler_scope.

(** [datetime.now(timezone.utc)] *)
Definition datetime_now : M datetime :=
  fun w => (Return (clock w (ticks w)),
            mkWorld (db w) (clock w) (S (ticks w)) (objectids w) (issued w)).

(** The driver's [ObjectId()] for a document that has no [_id] yet. *)
Definition new_ObjectId : M ObjectId :=
  fun w => (Return (objectids w (issued w)),
            mkWorld (db w) (clock w) (ticks w) (objectids w) (S (issued w))).

(** What the next call of [datetime.now(timezone.utc)] returns. *)
Definition next_now (w : World) : datetime := clock w (ticks w).

(** [db is None] *)
Definition db_is_None : M bool :=
  fun w => (Return (match db w with None => true | Some _ => false end), w).

(** ** Collections *)

(** A collection handle [db[name]]: where its documents live in the
    store.  Failures of the driver or the network are outside this model:
    on an available store the only operation that can raise is an insert,
    on an [_id] the collection already holds. *)
Record Collection (D : Type) := mkCollection {
  c_get : Store -> list D;
  c_set : list D -> Store -> Store
}.

Definition coll_post : Collection Post.t :=
  mkCollection post (fun l s => mkStore l (comment s) (vote s)).
Definition coll_comment : Collection Comment.t :=
  mkCollection comment (fun l s => mkStore (post s) l (vote s)).
Definition coll_vote : Collection Vote.t :=
  mkCollection vote (fun l s => mkStore (post s) (comment s) l).

(** Reading the documents behind [db[name]]; [db] being [None] makes the
    subscript raise. *)
Definition docs {D} (c : Collection D) : M (list D) :=
  fun w => match db w with
           | None => (Raise TypeError, w)
           | Some s => (Return (c_get c s), w)
           end.

Definition store_docs {D} (c : Collection D) (l : list D) : M unit :=
  fun w => match db w with
           | None => (Raise TypeError, w)
           | Some s => (Return tt, set_db w (Some (c_set c l s)))
           end.

(** Replace the first document matching [f]. *)
Fixpoint update_first {D} (f : D -> bool) (u : D -> D) (l : list D) : list D :=
  match l with
  | [] => []
  | d :: l' => if f d then u d :: l' else d :: update_first f u l'
  end.

(** Drop the first document matching [f]. *)
Fixpoint remove_first {D} (f : D -> bool) (l : list D) : list D :=
  match l with
  | [] => []
  | d :: l' => if f d then l' else d :: remove_first f l'
  end.

(** The filter [{"_id": i}]. *)
Definition by_id {D} `{Document D} (i : ObjectId) (d : D) : bool :=
  N.eqb (doc_id d) i.

Definition find_one {D} (c : Collection D) (f : D -> bool) : M (option D) :=
  l <- docs c ;; ret (find f l).

(** [find(filter)], materialised. *)
Definition find_all {D} (c : Collection D) (f : D -> bool) : M (list D) :=
  l <- docs c ;; ret (filter f l).

Definition count_documents {D} (c : Collection D) (f : D -> bool) : M Z :=
  l <- docs c ;; ret (Z.of_nat (List.length (filter f l))).

(** The server side of an insert: the collection's unique index on [_id]
    rejects a document whose [_id] it already holds. *)
Definition insert_doc {D} `{Document D} (c : Collection D) (d : D) : M unit :=
  l <- docs c ;;
  if existsb (by_id (doc_id d)) l then raise DuplicateKeyError
  else store_docs c (l ++ [d]).

(** [insert_one(doc)] for a [doc] without [_id]: the driver generates
    the [_id], the server inserts.  Returns [inserted_id]. *)
Definition insert_one {D} `{Document D} (c : Collection D)
    (doc : ObjectId -> D) : M ObjectId :=
  docs c ;;
  i <- new_ObjectId ;;
  insert_doc c (doc i) ;;
  ret i.

(** The driver gives every document of a batch its [_id] up front. *)
Fixpoint assign_ids {D} (ds : list (ObjectId -> D)) : M (list D) :=
  match ds with
  | [] => ret []
  | d :: ds' => i <- new_ObjectId ;; r <- assign_ids ds' ;; ret (d i :: r)
  end.

(** An ordered batch: documents go in one by one and the first rejected
    one stops the batch, the earlier ones staying in. *)
Fixpoint insert_docs {D} `{Document D} (c : Collection D) (l : list D)
    : M unit :=
  match l with
  | [] => ret tt
  | d :: l' =>
      try_except (insert_doc c d) (raise BulkWriteError) ;;
      insert_docs c l'
  end.

(** [insert_many(docs)] for documents without [_id]. *)
Definition insert_many {D} `{Document D} (c : Collection D)
    (ds : list (ObjectId -> D)) : M unit :=
  docs c ;;
  l <- assign_ids ds ;;
  insert_docs c l.

Definition update_one {D} (c : Collection D) (f : D -> bool) (u : D -> D)
    : M unit :=
  l <- docs c ;; store_docs c (update_first f u l).

Definition delete_one {D} (c : Collection D) (f : D -> bool) : M unit :=
  l <- docs c ;; store_docs c (remove_first f l).

(** *** Sorting a cursor *)

(** A sort specification is a list of (field, direction) pairs; a field is
    given by its accessor, the direction is [-1] (descending) or [1]. *)
Definition sort_spec (D : Type) := list ((D -> Z) * Z).

Fixpoint key_compare {D} (keys : sort_spec D) (a b : D) : comparison :=
  match keys with
  | [] => Eq
  | (f, dir) :: ks =>
      match (if dir <? 0 then f b ?= f a else f a ?= f b) with
      | Eq => key_compare ks a b
      | c => c
      end
  end.

(** [a] may come before [b]. *)
Definition key_le {D} (keys : sort_spec D) (a b : D) : bool :=
  match key_compare keys a b with Gt => false | _ => true end.

Definition before {D} (keys : sort_spec D) (a b : D) : Prop :=
  key_le keys a b = true.

Fixpoint sort_insert {D} (keys : sort_spec D) (x : D) (l : list D) : list D :=
  match l with
  | [] => [x]
  | y :: l' => if key_le keys x y then x :: l else y :: sort_insert keys x l'
  end.

(** [cursor.sort(keys)].  The server leaves the order of documents that
    agree on every key open; this sort keeps them in cursor order. *)
Fixpoint sort {D} (keys : sort_spec D) (l : list D) : list D :=
  match l with
  | [] => []
  | x :: l' => sort_insert keys x (sort keys l')
  end.

(** [cursor.limit(n)] *)
Definition limit {D} (n : nat) (l : list D) : list D := firstn n l.

(** [for x in l: body(x)] *)
Fixpoint for_each {A} (l : list A) (body : A -> M unit) : M unit :=
  match l with
  | [] => ret tt
  | x :: l' => body x ;; for_each l' body
  end.

(** ** Request and response shapes *)

Module PostCreate.
Record t := mk {
  title : str;
  tagline : str;
  maker : option str;
  url : option str
}.
End PostCreate.

Module VoteToggle.
Record t := mk { device_id : str }.
End VoteToggle.

Module CommentCreate.
Record t := mk {
  content : str;
  author : option str;
  device_id : option str
}.
End CommentCreate.

(** A serialized post: [_id] renamed to [id] and rendered as a string,
    dates rendered by [isoformat]. *)
Module PostOut.
Record t := mk {
  id : str;
  title : str;
  tagline : str;
  maker : option str;
  url : option str;
  votes_count : Z;
  comments_count : Z;
  created_at : str;
  updated_at : str
}.
End PostOut.

(** A serialized comment; [post_id] is not touched by [serialize]. *)
Module CommentOut.
Record t := mk {
  id : str;
  post_id : ObjectId;
  author : option str;
  content : str;
  device_id : option str;
  created_at : str;
  updated_at : str
}.
End CommentOut.

(** [{"voted": ..., "votes": ...}] *)
Module VoteOut.
Record t := mk { voted : bool; votes : Z }.
End VoteOut.

(** ** The libraries

    What the handlers take from [bson] and [datetime]: the constructor
    [ObjectId(id_str)] on a string ([None] where it raises), [str(_id)],
    and [v.isoformat()].

    One [isoformat] renders both a date a handler has just read from the
    clock (what [create_post] and [add_comment] return) and a date read back
    from the store (what the read handlers return).  In the code the two
    strings can differ (UTC offset, digits below the millisecond), so no
    property below compares a date string of a write's response with one of
    a later read. *)
Class Lib := mkLib {
  ObjectId_of_str : str -> option ObjectId;
  str_of_ObjectId : ObjectId -> str;
  isoformat : datetime -> str
}.

(** ** The handlers *)

Section Handlers.

Context {L : Lib}.

Definition oid (id_str : str) : M ObjectId :=
  match ObjectId_of_str id_str with
  | Some i => ret i
  | None => raise (HTTPException 400 "Invalid id")
  end.

(** [serialize] at a post document *)
Definition serialize_post (d : Post.t) : PostOut.t :=
  PostOut.mk (str_of_ObjectId (Post._id d)) (Post.title d) (Post.tagline d)
    (Post.maker d) (Post.url d) (Post.votes_count d) (Post.comments_count d)
    (isoformat (Post.created_at d)) (isoformat (Post.updated_at d)).

(** [serialize] at a comment document *)
Definition serialize_comment (d : Comment.t) : CommentOut.t :=
  CommentOut.mk (str_of_ObjectId (Comment._id d)) (Comment.post_id d)
    (Comment.author d) (Comment.content d) (Comment.device_id d)
    (isoformat (Comment.created_at d)) (isoformat (Comment.updated_at d)).

(** *** Seed data *)

Definition seed_posts : M unit :=
  none <- db_is_None ;;
  if none then ret tt else
  count <- count_documents coll_post (fun _ => true) ;;
  if count >? 0 then ret tt else
  c1 <- datetime_now ;; u1 <- datetime_now ;;
  c2 <- datetime_now ;; u2 <- datetime_now ;;
  c3 <- datetime_now ;; u3 <- datetime_now ;;
  c4 <- datetime_now ;; u4 <- datetime_now ;;
  let samples := [
    (fun i => Post.mk i "Auto-SaaS Genie"
       "AI that builds and ships micro-SaaS from a prompt."
       (Some "@vibe-wizard") (Some "https://example.com/genie")
       28 6 (c1 - timedelta_days 25) (u1 - timedelta_days 2));
    (fun i => Post.mk i "Recurring Notion Shop"
       "Turn any Notion template into a paid subscription."
       (Some "@opsmith") (Some "https://example.com/notion-shop")
       41 9 (c2 - timedelta_days 5) (u2 - timedelta_days 1));
    (fun i => Post.mk i "Tweet-to-Product"
       "Scrape your best tweets and spin them into a paid course + app."
       (Some "@shipdaily") (Some "https://example.com/tweet-product")
       12 2 (c3 - timedelta_days 2) (u3 - timedelta_hours 12));
    (fun i => Post.mk i "API to Airtable Cashflow"
       "One-click Stripe analytics in Airtable with churn & MRR."
       (Some "@revenuebits") (Some "https://example.com/cashflow")
       33 4 (c4 - timedelta_days 15) (u4 - timedelta_days 6))
  ] in
  match samples with
  | [] => ret tt
  | _ => insert_many coll_post samples
  end ;;
  (* Create some votes tied to a demo device so toggle logic works *)
  ps <- find_all coll_post (fun _ => true) ;;
  let demo_posts := limit 2 ps in
  for_each demo_posts (fun p =>
    c <- datetime_now ;; u <- datetime_now ;;
    insert_one coll_vote
      (fun i => Vote.mk i (Post._id p) "demo-device" c u) ;;
    ret tt).

Definition on_start : M unit :=
  try_except seed_posts (ret tt).

(** *** Posts listing with filters/sorts *)

(** The query [{}] or [{"created_at": {"$gte": bound}}]. *)
Definition created_at_gte (bound : option datetime) (p : Post.t) : bool :=
  match bound with
  | None => true
  | Some b => b <=? Post.created_at p
  end.

Definition list_posts (range sort_ : str) : M (list PostOut.t) :=
  none <- db_is_None ;;
  if none then ret [] else
  now <- datetime_now ;;
  let query :=
    if String.eqb range "week" then Some (now - timedelta_days 7)
    else if String.eqb range "month" then Some (now - timedelta_days 30)
    else None in
  let sort_key :=
    if String.eqb sort_ "comments" then (Post.comments_count, -1)
    else if String.eqb sort_ "latest" then (Post.created_at, -1)
    else (Post.votes_count, -1) in
  found <- find_all coll_post (created_at_gte query) ;;
  let items := sort [sort_key; (Post.created_at, -1)] found in
  ret (map serialize_post items).

Definition get_post (post_id : str) : M PostOut.t :=
  (* the subscript [db["post"]] is evaluated before the argument *)
  docs coll_post ;;
  i <- oid post_id ;;
  p <- find_one coll_post (by_id i) ;;
  match p with
  | None => raise (HTTPException 404 "Post not found")
  | Some p => ret (serialize_post p)
  end.

Definition create_post (data : PostCreate.t) : M PostOut.t :=
  none <- db_is_None ;;
  if none then raise (HTTPException 500 "Database not available") else
  c <- datetime_now ;; u <- datetime_now ;;
  let doc := fun i =>
    Post.mk i
      (strip (PostCreate.title data))
      (strip (PostCreate.tagline data))
      (or_None (strip (or_empty (PostCreate.maker data))))
      (or_None (strip (or_empty (PostCreate.url data))))
      0 0 c u in
  i <- insert_one coll_post doc ;;
  ret (serialize_post (doc i)).

(** *** Voting (toggle) *)

(** The filter [{"post_id": pid, "device_id": d}]. *)
Definition by_post_device (pid : ObjectId) (d : str) (v : Vote.t) : bool :=
  N.eqb (Vote.post_id v) pid && String.eqb (Vote.device_id v) d.

Definition toggle_vote (post_id : str) (payload : VoteToggle.t)
    : M VoteOut.t :=
  none <- db_is_None ;;
  if none then raise (HTTPException 500 "Database not available") else
  pid <- oid post_id ;;
  post <- find_one coll_post (by_id pid) ;;
  match post with
  | None => raise (HTTPException 404 "Post not found")
  | Some _ =>
    existing <- find_one coll_vote
                  (by_post_device pid (VoteToggle.device_id payload)) ;;
    voted <-
      match existing with
      | Some e =>
          (* unvote *)
          delete_one coll_vote (by_id (Vote._id e)) ;;
          now <- datetime_now ;;
          update_one coll_post (by_id pid) (Post.inc_votes_count (-1) now) ;;
          ret false
      | None =>
          (* vote *)
          c <- datetime_now ;; u <- datetime_now ;;
          insert_one coll_vote
            (fun i => Vote.mk i pid (VoteToggle.device_id payload) c u) ;;
          now <- datetime_now ;;
          update_one coll_post (by_id pid) (Post.inc_votes_count 1 now) ;;
          ret true
      end ;;
    post <- find_one coll_post (by_id pid) ;;
    match post with
    | Some p => ret (VoteOut.mk voted (Post.votes_count p))
    | None => raise AttributeError
    end
  end.

(** *** Comments *)

(** The filter [{"post_id": pid}]. *)
Definition by_post (pid : ObjectId) (c : Comment.t) : bool :=
  N.eqb (Comment.post_id c) pid.

Definition list_comments (post_id : str) : M (list CommentOut.t) :=
  pid <- oid post_id ;;
  found <- find_all coll_comment (by_post pid) ;;
  let items := sort [(Comment.created_at, -1)] found in
  ret (map serialize_comment items).

Definition add_comment (post_id : str) (payload : CommentCreate.t)
    : M CommentOut.t :=
  pid <- oid post_id ;;
  p <- find_one coll_post (by_id pid) ;;
  match p with
  | None => raise (HTTPException 404 "Post not found")
  | Some _ =>
    c <- datetime_now ;; u <- datetime_now ;;
    let doc := fun i =>
      Comment.mk i pid
        (or_None (strip (or_empty (CommentCreate.author payload))))
        (strip (CommentCreate.content payload))
        (opt_or_None (CommentCreate.device_id payload))
        c u in
    i <- insert_one coll_comment doc ;;
    now <- datetime_now ;;
    update_one coll_post (by_id pid) (Post.inc_comments_count 1 now) ;;
    ret (serialize_comment (doc i))
  end.

(** *** Runs of the service *)

Inductive request :=
| Startup
| ListPosts (range sort_ : str)
| GetPost (post_id : str)
| CreatePost (data : PostCreate.t)
| ToggleVote (post_id : str) (payload : VoteToggle.t)
| ListComments (post_id : str)
| AddComment (post_id : str) (payload : CommentCreate.t).

(** The world after serving one request. *)
Definition serve (r : request) (w : World) : World :=
  match r with
  | Startup => snd (on_start w)
  | ListPosts range sort_ => snd (list_posts range sort_ w)
  | GetPost post_id => snd (get_post post_id w)
  | CreatePost data => snd (create_post data w)
  | ToggleVote post_id payload => snd (toggle_vote post_id payload w)
  | ListComments post_id => snd (list_comments post_id w)
  | AddComment post_id payload => snd (add_comment post_id payload w)
  end.

Definition serve_all (rs : list request) (w : World) : World :=
  fold_left (fun w r => serve r w) rs w.

Definition is_Startup (r : request) : bool :=
  match r with Startup => true | _ => false end.

(** No request of the run is the startup hook. *)
Definition no_Startup (rs : list request) : bool :=
  forallb (fun r => negb (is_Startup r)) rs.

(** The world after [k] calls [toggle_vote(post_id, payload)] in a row. *)
Fixpoint toggle_times (k : nat) (post_id : str) (payload : VoteToggle.t)
    (w : World) : World :=
  match k with
  | O => w
  | S k' =>
      snd (toggle_vote post_id payload (toggle_times k' post_id payload w))
  end.

(** The response to call number [k] of that row, [k] counted from 1. *)
Definition toggle_response (k : nat) (post_id : str) (payload : VoteToggle.t)
    (w : World) : outcome VoteOut.t :=
  fst (toggle_vote post_id payload (toggle_times (pred k) post_id payload w)).

(** The worlds the service gets to from a fresh, empty database. *)
Definition reachable (w : World) : Prop :=
  exists w0 rs, db w0 = Some empty_store /\ w = serve_all rs w0.

End Handlers.

(** ** A concrete reading of the library functions

    Used to run the handlers on examples: ids are written as 24
    hexadecimal digits, dates as a count of milliseconds. *)

Definition hex_digit (c : ascii) : option N :=
  let n := N_of_ascii c in
  if (48 <=? n)%N && (n <=? 57)%N then Some (n - 48)%N
  else if (97 <=? n)%N && (n <=? 102)%N then Some (n - 87)%N
  else if (65 <=? n)%N && (n <=? 70)%N then Some (n - 55)%N
  else None.

Fixpoint hex_value (acc : N) (s : str) : option N :=
  match s with
  | EmptyString => Some acc
  | String c s' =>
      match hex_digit c with
      | Some d => hex_value (16 * acc + d)%N s'
      | None => None
      end
  end.

Definition hex_ObjectId (s : str) : option ObjectId :=
  if Nat.eqb (String.length s) 24 then hex_value 0%N s else None.

Definition hex_char (d : N) : ascii :=
  if (d <? 10)%N then ascii_of_N (48 + d) else ascii_of_N (87 + d).

Fixpoint hex_digits (n : nat) (v : N) (acc : str) : str :=
  match n with
  | O => acc
  | S n' => hex_digits n' (v / 16)%N (String (hex_char (v mod 16)%N) acc)
  end.

Definition ObjectId_hex (i : ObjectId) : str := hex_digits 24 i "".

Fixpoint dec_digits (fuel : nat) (v : N) (acc : str) : str :=
  match fuel with
  | O => acc
  | S f =>
      let acc' := String (ascii_of_N (48 + v mod 10)%N) acc in
      if (v / 10 =? 0)%N then acc' else dec_digits f (v / 10)%N acc'
  end.

(** A date written as its millisecond count. *)
Definition millis (t : datetime) : str :=
  String.append (if t <? 0 then "-" else "") (dec_digits 40 (Z.abs_N t) "").

Definition hex_lib : Lib := mkLib hex_ObjectId ObjectId_hex millis.

(** A world whose clock advances one millisecond per reading and whose
    driver numbers the documents 1, 2, 3, ... *)
Definition world0 (d : option Store) : World :=
  mkWorld d (fun k => 1700000000000 + Z.of_nat k) 0
          (fun k => N.of_nat (S k)) 0.

(** A store with one post and nothing else. *)
Definition demo_post : Post.t :=
  Post.mk 1%N "Idea" "A tagline" None None 0 0 1699000000000 1699000000000.

Definition demo_store : Store := mkStore [demo_post] [] [].

(** The world of that store: the id of its post is the one id issued so
    far. *)
Definition demo_world : World :=
  mkWorld (Some demo_store) (clock (world0 None)) 0 (objectids (world0 None)) 1.

(** The id of the first document, as a client writes it. *)
Definition id_1 : str := "000000000000000000000001".

(** The service just started on an empty database. *)
Definition seeded_world : World :=
  serve (L:=hex_lib) Startup (world0 (Some empty_store)).

Definition seeded_store : Store :=
  match db seeded_world with Some s => s | None => empty_store end.

(** ** Store invariants *)

Definition count_if {D} (f : D -> bool) (l : list D) : Z :=
  Z.of_nat (List.length (filter f l)).

(** The filter [{"post_id": pid}] on votes. *)
Definition vote_of_post (pid : ObjectId) (v : Vote.t) : bool :=
  N.eqb (Vote.post_id v) pid.

(** The number of Vote records that reference post [pid]. *)
Definition votes_for (s : Store) (pid : ObjectId) : Z :=
  count_if (vote_of_post pid) (vote s).

(** The number of Comment records that reference post [pid]. *)
Definition comments_for (s : Store) (pid : ObjectId) : Z :=
  count_if (by_post pid) (comment s).

(** The cached counters of [p] agree with the records of the store. *)
Definition counters_agree (s : Store) (p : Post.t) : Prop :=
  Post.votes_count p = votes_for s (Post._id p) /\
  Post.comments_count p = comments_for s (Post._id p).

Definition counter_consistent (s : Store) : Prop :=
  forall p, In p (post s) -> counters_agree s p.

(** Consistency of every post whose id is not listed in [seeded]. *)
Definition counter_consistent_except (seeded : list ObjectId) (s : Store)
    : Prop :=
  forall p, In p (post s) -> ~ In (Post._id p) seeded -> counters_agree s p.

(** At most one Vote per (post_id, device_id) pair. *)
Definition one_vote_per_device (s : Store) : Prop :=
  forall pid d,
    (List.length (filter (by_post_device pid d) (vote s)) <= 1)%nat.

Definition unique_ids {D} `{Document D} (l : list D) : Prop :=
  NoDup (map doc_id l).

Definition post_ids (s : Store) : list ObjectId := map Post._id (post s).

(** What every store the service produces satisfies: [_id] is a key of
    each collection, votes and comments reference posts of the store, and
    a device holds at most one vote on a post. *)
Record store_ok (s : Store) : Prop := mk_store_ok {
  ok_post_ids : unique_ids (post s);
  ok_vote_ids : unique_ids (vote s);
  ok_comment_ids : unique_ids (comment s);
  ok_vote_refs : forall v, In v (vote s) -> In (Vote.post_id v) (post_ids s);
  ok_comment_refs :
    forall c, In c (comment s) -> In (Comment.post_id c) (post_ids s);
  ok_one_vote : one_vote_per_device s
}.

(** Where a row of toggles by device [dev] on post [pid] stands, seen from
    the store [s] it started in (the device holding no vote there and the
    post counting [v0] votes): the device's vote is in ([b = true]) or out. *)
Definition toggled (b : bool) (s : Store) (pid : ObjectId) (dev : str)
    (v0 : Z) (s' : Store) : Prop :=
  comment s' = comment s /\
  (exists p', find (by_id pid) (post s') = Some p' /\
              Post.votes_count p' = v0 + (if b then 1 else 0)) /\
  (if b
   then exists v, vote s' = vote s ++ [v] /\ Vote.post_id v = pid /\
                  Vote.device_id v = dev /\
                  ~ In (Vote._id v) (map Vote._id (vote s))
   else vote s' = vote s).

(** What a successful write request does to the store. *)
Inductive store_step (s : Store) : Store -> Prop :=
| step_create p :
    ~ In (Post._id p) (post_ids s) ->
    Post.votes_count p = 0 -> Post.comments_count p = 0 ->
    store_step s (mkStore (post s ++ [p]) (comment s) (vote s))
| step_vote v now :
    In (Vote.post_id v) (post_ids s) ->
    find (by_post_device (Vote.post_id v) (Vote.device_id v)) (vote s) = None ->
    ~ In (Vote._id v) (map Vote._id (vote s)) ->
    store_step s
      (mkStore (update_first (by_id (Vote.post_id v))
                  (Post.inc_votes_count 1 now) (post s))
               (comment s) (vote s ++ [v]))
| step_unvote e now :
    In e (vote s) ->
    store_step s
      (mkStore (update_first (by_id (Vote.post_id e))
                  (Post.inc_votes_count (-1) now) (post s))
               (comment s) (remove_first (by_id (Vote._id e)) (vote s)))
| step_comment c now :
    In (Comment.post_id c) (post_ids s) ->
    ~ In (Comment._id c) (map Comment._id (comment s)) ->
    store_step s
      (mkStore (update_first (by_id (Comment.post_id c))
                  (Post.inc_comments_count 1 now) (post s))
               (comment s ++ [c]) (vote s)).

(** [s] consists of whitespace only (the empty string included). *)
Fixpoint all_space (s : str) : bool :=
  match s with
  | EmptyString => true
  | String c s' => isspace c && all_space s'
  end.

(** The first and the last character of a string, if any. *)
Definition first_char (s : str) : option ascii :=
  match s with EmptyString => None | String c _ => Some c end.

Fixpoint last_char (s : str) : option ascii :=
  match s with
  | EmptyString => None
  | String c EmptyString => Some c
  | String _ s' => last_char s'
  end.


(** ** Vocabulary for the further properties *)

(** The world [w] after [dt] more clock readings and [di] more generated
    ids, with [d] as its database. *)
Definition after (dt di : nat) (d : option Store) (w : World) : World :=
  mkWorld d (clock w) (dt + ticks w) (objectids w) (di + issued w).

(** The document [create_post] builds from a request, given the generated
    id and the two clock readings. *)
Definition post_of (data : PostCreate.t) (i : ObjectId) (c u : datetime)
    : Post.t :=
  Post.mk i
    (strip (PostCreate.title data))
    (strip (PostCreate.tagline data))
    (or_None (strip (or_empty (PostCreate.maker data))))
    (or_None (strip (or_empty (PostCreate.url data))))
    0 0 c u.

(** The document [add_comment] builds. *)
Definition comment_of (payload : CommentCreate.t) (pid i : ObjectId)
    (c u : datetime) : Comment.t :=
  Comment.mk i pid
    (or_None (strip (or_empty (CommentCreate.author payload))))
    (strip (CommentCreate.content payload))
    (opt_or_None (CommentCreate.device_id payload))
    c u.

(** Two versions of a post that differ at most in the counters and in
    [updated_at]. *)
Definition same_content (p p' : Post.t) : Prop :=
  Post._id p' = Post._id p /\
  Post.title p' = Post.title p /\
  Post.tagline p' = Post.tagline p /\
  Post.maker p' = Post.maker p /\
  Post.url p' = Post.url p /\
  Post.created_at p' = Post.created_at p.

(** Two serialized posts that agree on every field but the rendered
    dates. *)
Definition same_post_fields (r r' : PostOut.t) : Prop :=
  PostOut.id r' = PostOut.id r /\
  PostOut.title r' = PostOut.title r /\
  PostOut.tagline r' = PostOut.tagline r /\
  PostOut.maker r' = PostOut.maker r /\
  PostOut.url r' = PostOut.url r /\
  PostOut.votes_count r' = PostOut.votes_count r /\
  PostOut.comments_count r' = PostOut.comments_count r.

(** Two serialized comments that agree on every field but the rendered
    dates. *)
Definition same_comment_fields (r r' : CommentOut.t) : Prop :=
  CommentOut.id r' = CommentOut.id r /\
  CommentOut.post_id r' = CommentOut.post_id r /\
  CommentOut.author r' = CommentOut.author r /\
  CommentOut.content r' = CommentOut.content r /\
  CommentOut.device_id r' = CommentOut.device_id r.

(** Every counter is at least the number of records it counts. *)
Definition counters_cover (s : Store) : Prop :=
  forall p, In p (post s) ->
    votes_for s (Post._id p) <= Post.votes_count p /\
    comments_for s (Post._id p) <= Post.comments_count p.

(** A string neither starts nor ends with whitespace. *)
Definition trimmed (s : str) : Prop :=
  (forall c, first_char s = Some c -> isspace c = false) /\
  (forall c, last_char s = Some c -> isspace c = false).

(** A store with two posts that count the same votes, the older one
    stored first. *)
Definition older_post : Post.t :=
  Post.mk 1%N "Older" "Came first" None None 5 0 1699000000000 1699000000000.

Definition newer_post : Post.t :=
  Post.mk 2%N "Newer" "Came second" None None 5 0 1699500000000 1699500000000.

Definition tie_store : Store := mkStore [older_post; newer_post] [] [].

Definition tie_world : World :=
  mkWorld (Some tie_store) (clock (world0 None)) 0 (objectids (world0 None)) 2.

(** The id of the second document, as a client writes it. *)
Definition id_2 : str := "000000000000000000000002".

(** The service after two posts were created on an empty database, two
    comments were left on the first and, between them, one on the second. *)
Definition commented_world : World :=
  serve_all (L:=hex_lib)
    [CreatePost (PostCreate.mk "One" "First idea" None None);
     CreatePost (PostCreate.mk "Two" "Second idea" None None);
     AddComment id_1 (CommentCreate.mk "first" None None);
     AddComment id_2 (CommentCreate.mk "elsewhere" None None);
     AddComment id_1 (CommentCreate.mk "second" None None)]
    (world0 (Some empty_store)).

Definition commented_store : Store :=
  match db commented_world with Some s => s | None => empty_store end.

(** The service after one post was created on an empty database and one
    device voted for it. *)
Definition voted_world : World :=
  serve_all (L:=hex_lib)
    [CreatePost (PostCreate.mk " Idea" " " None None);
     ToggleVote id_1 (VoteToggle.mk "phone")]
    (world0 (Some empty_store)).

Definition voted_store : Store :=
  match db voted_world with Some s => s | None => empty_store end.

Section Sequences.
Context {L : Lib}.

(** The devices of [devs] toggle their vote on one post, one after the
    other: the world after the last call. *)
Fixpoint toggle_each (post_id : str) (devs : list str) (w : World) : World :=
  match devs with
  | [] => w
  | d :: ds =>
      toggle_each post_id ds (snd (toggle_vote post_id (VoteToggle.mk d) w))
  end.

End Sequences.

(** * Properties *)

Unset Implicit Arguments.

(** ** Stripping *)

Lemma lstrip_all_space s : all_space s = true -> lstrip s = "".
Proof.
  induction s as [|c s IH]; simpl; [reflexivity|].
  intros H. apply andb_true_iff in H as [Hc Hs]. rewrite Hc. auto.
Qed.

Lemma rstrip_all_space s : all_space s = true -> rstrip s = "".
Proof.
  induction s as [|c s IH]; simpl; [reflexivity|].
  intros H. apply andb_true_iff in H as [Hc Hs].
  rewrite (IH Hs), Hc. reflexivity.
Qed.

Lemma strip_all_space s : all_space s = true -> strip s = "".
Proof.
  intros H. unfold strip. rewrite (lstrip_all_space _ H). reflexivity.
Qed.

Lemma rstrip_empty_inv s : rstrip s = "" -> all_space s = true.
Proof.
  induction s as [|c s IH]; simpl; [reflexivity|].
  destruct (rstrip s) eqn:E; [|discriminate].
  destruct (isspace c); [|discriminate]. auto.
Qed.

Lemma lstrip_space_inv s : all_space (lstrip s) = true -> all_space s = true.
Proof.
  induction s as [|c s IH]; simpl; [reflexivity|].
  destruct (isspace c) eqn:E; simpl; [auto|].
  rewrite E. discriminate.
Qed.

Lemma strip_empty_iff s : strip s = "" <-> all_space s = true.
Proof.
  split; [|apply strip_all_space].
  intros H. apply lstrip_space_inv, rstrip_empty_inv, H.
Qed.

Lemma lstrip_first s c : first_char (lstrip s) = Some c -> isspace c = false.
Proof.
  induction s as [|a s IH]; simpl; [discriminate|].
  destruct (isspace a) eqn:E; [exact IH|].
  simpl. intros [= <-]. exact E.
Qed.

Lemma rstrip_first s c :
  first_char (rstrip s) = Some c -> first_char s = Some c.
Proof.
  destruct s as [|a s]; simpl; [discriminate|].
  destruct (rstrip s); [destruct (isspace a)|]; simpl; congruence.
Qed.

Lemma rstrip_last s c : last_char (rstrip s) = Some c -> isspace c = false.
Proof.
  induction s as [|a s IH]; simpl; [discriminate|].
  destruct (rstrip s) as [|b r] eqn:E.
  - destruct (isspace a) eqn:Ea; simpl; [discriminate|].
    intros [= <-]. exact Ea.
  - simpl. exact IH.
Qed.

(** A stripped string neither starts nor ends with whitespace. *)
Lemma strip_trimmed s :
  (forall c, first_char (strip s) = Some c -> isspace c = false) /\
  (forall c, last_char (strip s) = Some c -> isspace c = false).
Proof.
  split; intros c H.
  - apply (lstrip_first s), rstrip_first, H.
  - apply (rstrip_last _ _ H).
Qed.

(** Stripping only removes whitespace at the two ends. *)
Lemma lstrip_decompose s :
  exists l, all_space l = true /\ s = String.append l (lstrip s).
Proof.
  induction s as [|c s [l [Hl E]]]; simpl.
  - exists ""; auto.
  - destruct (isspace c) eqn:Ec.
    + exists (String c l). simpl. rewrite Ec, Hl. split; [reflexivity|].
      f_equal. exact E.
    + exists "". auto.
Qed.

Lemma rstrip_decompose s :
  exists r, all_space r = true /\ s = String.append (rstrip s) r.
Proof.
  induction s as [|c s [r [Hr E]]]; simpl.
  - exists ""; auto.
  - destruct (rstrip s) as [|b t] eqn:Et.
    + destruct (isspace c) eqn:Ec.
      * exists (String c r). simpl. rewrite Ec, Hr. split; [reflexivity|].
        simpl in E. congruence.
      * exists r. split; [assumption|]. simpl. simpl in E. congruence.
    + exists r. split; [assumption|]. simpl. f_equal. exact E.
Qed.

Lemma strip_decompose s :
  exists l r, all_space l = true /\ all_space r = true /\
              s = String.append l (String.append (strip s) r).
Proof.
  destruct (lstrip_decompose s) as [l [Hl El]].
  destruct (rstrip_decompose (lstrip s)) as [r [Hr Er]].
  exists l, r. repeat split; try assumption.
  unfold strip. rewrite <- Er. exact El.
Qed.

Lemma or_None_strip m :
  or_None (strip (or_empty (Some m)))
  = if all_space m then None else Some (strip m).
Proof.
  assert (E : strip (or_empty (Some m)) = strip m).
  { destruct m; reflexivity. }
  rewrite E. unfold or_None.
  destruct (all_space m) eqn:Ha.
  - rewrite (strip_all_space _ Ha). reflexivity.
  - destruct (strip m) eqn:Es; [|reflexivity].
    apply strip_empty_iff in Es. congruence.
Qed.

(** ** Collections as lists *)

Section ListFacts.
Context {D : Type} `{Document D}.

Lemma by_id_true i (d : D) : by_id i d = true <-> doc_id d = i.
Proof. unfold by_id. apply N.eqb_eq. Qed.

Lemma by_id_false i (d : D) : by_id i d = false <-> doc_id d <> i.
Proof. unfold by_id. apply N.eqb_neq. Qed.

Lemma existsb_by_id i (l : list D) :
  existsb (by_id i) l = true <-> In i (map doc_id l).
Proof.
  rewrite existsb_exists, in_map_iff.
  split; intros [d [H1 H2]]; exists d.
  - apply by_id_true in H2. auto.
  - split; [assumption|]. apply by_id_true. assumption.
Qed.

Lemma existsb_by_id_false i (l : list D) :
  existsb (by_id i) l = false <-> ~ In i (map doc_id l).
Proof.
  rewrite <- existsb_by_id.
  destruct (existsb (by_id i) l); intuition congruence.
Qed.

Lemma find_by_id_None i (l : list D) :
  find (by_id i) l = None <-> ~ In i (map doc_id l).
Proof.
  rewrite <- existsb_by_id_false.
  induction l as [|d l IH]; simpl; [tauto|].
  destruct (by_id i d); simpl; [split; discriminate | exact IH].
Qed.

Lemma find_by_id_Some i (l : list D) d :
  find (by_id i) l = Some d -> In d l /\ doc_id d = i.
Proof.
  intros Hf. apply find_some in Hf as [Hin Hb].
  apply by_id_true in Hb. auto.
Qed.

Lemma unique_ids_app_one (l : list D) d :
  unique_ids l -> ~ In (doc_id d) (map doc_id l) -> unique_ids (l ++ [d]).
Proof.
  unfold unique_ids. intros Hl Hd. rewrite map_app. simpl.
  induction (map doc_id l) as [|a m IH]; simpl.
  - constructor; [intros []|constructor].
  - inversion Hl; subst. constructor.
    + rewrite in_app_iff. simpl. intros [Ha|[Ha|[]]]; [tauto|].
      apply Hd. left. congruence.
    + apply IH; [assumption|]. intros Hm. apply Hd. right. exact Hm.
Qed.

Variable u : D -> D.
Hypothesis u_id : forall d, doc_id (u d) = doc_id d.

Lemma map_id_update_first f (l : list D) :
  map doc_id (update_first f u l) = map doc_id l.
Proof.
  induction l as [|d l IH]; simpl; [reflexivity|].
  destruct (f d); simpl; [rewrite u_id|rewrite IH]; reflexivity.
Qed.

(** With [_id] a key, [update_one({"_id": i}, u)] changes the document
    with that id and leaves every other document alone. *)
Lemma In_update_first i (l : list D) d' :
  unique_ids l ->
  In d' (update_first (by_id i) u l) ->
  (In d' l /\ doc_id d' <> i) \/
  (exists d, In d l /\ doc_id d = i /\ d' = u d).
Proof.
  unfold unique_ids.
  induction l as [|d l IH]; simpl; [intros _ []|].
  intros Hnd Hin. inversion Hnd as [|? ? Hnotin Hnd']; subst.
  destruct (by_id i d) eqn:E.
  - apply by_id_true in E. destruct Hin as [<-|Hin].
    + right. exists d. auto.
    + left. split; [auto|]. intros Hd'. apply Hnotin.
      rewrite E, <- Hd'. apply in_map. assumption.
  - apply by_id_false in E. destruct Hin as [<-|Hin].
    + left. auto.
    + destruct (IH Hnd' Hin) as [[H1 H2]|[d0 [H1 [H2 H3]]]].
      * left. auto.
      * right. exists d0. auto.
Qed.

Lemma find_update_first i (l : list D) d :
  find (by_id i) l = Some d ->
  find (by_id i) (update_first (by_id i) u l) = Some (u d).
Proof.
  induction l as [|a l IH]; simpl; [discriminate|].
  destruct (by_id i a) eqn:E.
  - intros [= <-]. simpl. unfold by_id in *. rewrite u_id, E. reflexivity.
  - intros Hf. simpl. rewrite E. auto.
Qed.

End ListFacts.

Section RemoveFacts.
Context {D : Type} `{Document D}.

(** With [_id] a key, [delete_one({"_id": e._id})] removes [e] itself. *)
Lemma remove_first_by_id (l : list D) e :
  unique_ids l -> In e l ->
  exists l1 l2, l = l1 ++ e :: l2 /\
                remove_first (by_id (doc_id e)) l = l1 ++ l2.
Proof.
  unfold unique_ids.
  induction l as [|d l IH]; simpl; [intros _ []|].
  intros Hnd Hin. inversion Hnd as [|? ? Hnotin Hnd']; subst.
  destruct (by_id (doc_id e) d) eqn:E.
  - apply by_id_true in E. destruct Hin as [->|Hin].
    + exists [], l. auto.
    + exfalso. apply Hnotin. rewrite E. apply in_map. assumption.
  - apply by_id_false in E. destruct Hin as [->|Hin]; [congruence|].
    destruct (IH Hnd' Hin) as [l1 [l2 [E1 E2]]].
    exists (d :: l1), l2. simpl. rewrite E2. split; congruence.
Qed.

Lemma count_if_app (f : D -> bool) l1 l2 :
  count_if f (l1 ++ l2) = count_if f l1 + count_if f l2.
Proof.
  unfold count_if. rewrite filter_app, length_app. lia.
Qed.

Lemma count_if_cons (f : D -> bool) d l :
  count_if f (d :: l) = (if f d then 1 else 0) + count_if f l.
Proof.
  unfold count_if. simpl. destruct (f d); simpl List.length; lia.
Qed.

Lemma count_if_nonneg (f : D -> bool) l : 0 <= count_if f l.
Proof. unfold count_if. lia. Qed.

Lemma count_if_zero (f : D -> bool) l :
  (forall d, In d l -> f d = false) -> count_if f l = 0.
Proof.
  intros Hf. unfold count_if.
  induction l as [|d l IH]; simpl; [reflexivity|].
  rewrite (Hf d) by (left; reflexivity).
  apply IH. intros d' Hd'. apply Hf. right. assumption.
Qed.

End RemoveFacts.

(** ** Running the handlers *)

Ltac run :=
  cbv beta iota delta
    [bind ret raise try_except db_is_None datetime_now new_ObjectId docs
     store_docs find_one find_all count_documents insert_doc insert_one
     update_one delete_one set_db oid coll_post coll_vote coll_comment];
  unfold Post_Document, Vote_Document, Comment_Document in *;
  cbn [db clock ticks objectids issued c_get c_set post vote comment fst snd
       doc_id Post._id Vote._id Comment._id].

Ltac open_world w d :=
  destruct w as [d ? ? ? ?]; cbn [db clock ticks objectids issued] in *.

Lemma find_Some_id_in {D} `{Document D} i (l : list D) d :
  find (by_id i) l = Some d -> In i (map doc_id l).
Proof.
  intros Hf. apply find_by_id_Some in Hf as [Hin <-]. apply in_map. exact Hin.
Qed.

Lemma by_post_device_true pid d v :
  by_post_device pid d v = true <->
  Vote.post_id v = pid /\ Vote.device_id v = d.
Proof.
  unfold by_post_device. rewrite andb_true_iff, N.eqb_eq, String.eqb_eq.
  reflexivity.
Qed.

Section HandlerFacts.
Context {L : Lib}.

(** The read requests leave the store alone. *)
Lemma list_posts_db range sort_ w : db (snd (list_posts range sort_ w)) = db w.
Proof.
  open_world w d. unfold list_posts. run.
  destruct d; reflexivity.
Qed.

Lemma get_post_db post_id w : db (snd (get_post post_id w)) = db w.
Proof.
  open_world w d. unfold get_post. run.
  destruct d as [s|]; [|reflexivity].
  destruct (ObjectId_of_str post_id); [|reflexivity]. run.
  destruct (find _ (post s)); reflexivity.
Qed.

Lemma list_comments_db post_id w : db (snd (list_comments post_id w)) = db w.
Proof.
  open_world w d. unfold list_comments. run.
  destruct (ObjectId_of_str post_id); [|reflexivity]. run.
  destruct d; reflexivity.
Qed.

(** The write requests either leave the store alone or take one
    [store_step]. *)
Lemma create_post_db data w s :
  db w = Some s ->
  exists s', db (snd (create_post data w)) = Some s' /\
             (s' = s \/ store_step s s').
Proof.
  open_world w d. intros ->. unfold create_post. run.
  match goal with |- context [existsb ?f (post s)] =>
    destruct (existsb f (post s)) eqn:Hex end; run.
  - exists s. auto.
  - eexists. split; [reflexivity|]. right.
    apply existsb_by_id_false in Hex.
    match goal with |- store_step _ (mkStore (_ ++ [?p]) _ _) =>
      apply (step_create s p) end; auto.
Qed.

Lemma toggle_vote_db post_id payload w s :
  db w = Some s ->
  exists s', db (snd (toggle_vote post_id payload w)) = Some s' /\
             (s' = s \/ store_step s s').
Proof.
  open_world w d. intros ->. unfold toggle_vote. run.
  destruct (ObjectId_of_str post_id) as [pid|] eqn:Hpid; run;
    [|exists s; auto].
  destruct (find (by_id pid) (post s)) as [p|] eqn:Hp; run;
    [|exists s; auto].
  destruct (find (by_post_device _ _) (vote s)) as [e|] eqn:He; run.
  - erewrite find_update_first by (first [eassumption | intros; reflexivity]).
    eexists. split; [reflexivity|]. right.
    apply find_some in He as [Hin Hb].
    apply by_post_device_true in Hb as [<- _].
    apply step_unvote. exact Hin.
  - match goal with |- context [existsb ?f (vote s)] =>
      destruct (existsb f (vote s)) eqn:Hex end; run.
    + exists s. auto.
    + erewrite find_update_first by (first [eassumption | intros; reflexivity]).
      eexists. split; [reflexivity|]. right.
      apply existsb_by_id_false in Hex.
      match goal with |- store_step _ (mkStore _ _ (_ ++ [?v])) =>
        apply (step_vote s v) end; cbn; auto.
      apply (find_Some_id_in _ _ _ Hp).
Qed.

Lemma add_comment_db post_id payload w s :
  db w = Some s ->
  exists s', db (snd (add_comment post_id payload w)) = Some s' /\
             (s' = s \/ store_step s s').
Proof.
  open_world w d. intros ->. unfold add_comment. run.
  destruct (ObjectId_of_str post_id) as [pid|] eqn:Hpid; run;
    [|exists s; auto].
  destruct (find (by_id pid) (post s)) as [p|] eqn:Hp; run;
    [|exists s; auto].
  match goal with |- context [existsb ?f (comment s)] =>
    destruct (existsb f (comment s)) eqn:Hex end; run.
  - exists s. auto.
  - eexists. split; [reflexivity|]. right.
    apply existsb_by_id_false in Hex.
    match goal with |- store_step _ (mkStore _ (_ ++ [?c]) _) =>
      apply (step_comment s c) end; cbn; auto.
    apply (find_Some_id_in _ _ _ Hp).
Qed.

End HandlerFacts.

(** ** The store invariant *)

Lemma find_None_filter {D} (f : D -> bool) (l : list D) :
  find f l = None -> filter f l = [].
Proof.
  induction l as [|d l IH]; simpl; [reflexivity|].
  destruct (f d); [discriminate|exact IH].
Qed.

Lemma unique_ids_remove {D} `{Document D} (l1 l2 : list D) e :
  unique_ids (l1 ++ e :: l2) -> unique_ids (l1 ++ l2).
Proof.
  unfold unique_ids. rewrite !map_app. simpl. apply NoDup_remove_1.
Qed.

Lemma post_ids_update s f u c v :
  (forall p, Post._id (u p) = Post._id p) ->
  post_ids (mkStore (update_first f u (post s)) c v) = post_ids s.
Proof.
  intros Hu. unfold post_ids. simpl. apply (map_id_update_first u Hu).
Qed.

Lemma inc_votes_id d now p :
  Post._id (Post.inc_votes_count d now p) = Post._id p.
Proof. reflexivity. Qed.

Lemma inc_comments_id d now p :
  Post._id (Post.inc_comments_count d now p) = Post._id p.
Proof. reflexivity. Qed.

Lemma store_ok_empty : store_ok empty_store.
Proof.
  constructor; simpl.
  - constructor.
  - constructor.
  - constructor.
  - intros v [].
  - intros c [].
  - intros pid d. simpl. lia.
Qed.

(** Every write keeps the store well formed. *)
Lemma store_step_ok s s' : store_ok s -> store_step s s' -> store_ok s'.
Proof.
  intros [Hp Hv Hc Hvr Hcr H1] Hstep.
  destruct Hstep as [p Hfresh _ _ | v now Hpid Hnone Hfresh
                    | e now Hin | c now Hpid Hfresh].
  - constructor; simpl; auto.
    + apply unique_ids_app_one; assumption.
    + intros v Hv'. unfold post_ids. simpl. rewrite map_app, in_app_iff.
      left. apply Hvr, Hv'.
    + intros c Hc'. unfold post_ids. simpl. rewrite map_app, in_app_iff.
      left. apply Hcr, Hc'.
  - constructor; simpl; auto.
    + unfold unique_ids. rewrite map_id_update_first by (intros; reflexivity).
      exact Hp.
    + apply unique_ids_app_one; assumption.
    + intros v' Hv'. rewrite post_ids_update by (intros; reflexivity).
      apply in_app_iff in Hv' as [Hv'|[<-|[]]]; auto.
    + intros c Hc'. rewrite post_ids_update by (intros; reflexivity).
      auto.
    + intros pid d. simpl. rewrite filter_app, length_app. simpl.
      destruct (by_post_device pid d v) eqn:E; simpl.
      * apply by_post_device_true in E as [<- <-].
        rewrite (find_None_filter _ _ Hnone). simpl. lia.
      * specialize (H1 pid d). lia.
  - destruct (remove_first_by_id _ _ Hv Hin) as [l1 [l2 [E1 E2]]].
    change (doc_id e) with (Vote._id e) in E2.
    constructor; simpl; auto.
    + unfold unique_ids.
      rewrite map_id_update_first by (intros; reflexivity). exact Hp.
    + rewrite E2. rewrite E1 in Hv. apply (unique_ids_remove _ _ _ Hv).
    + intros v' Hv'. rewrite post_ids_update by (intros; reflexivity).
      apply Hvr. rewrite E1. rewrite E2 in Hv'.
      apply in_app_iff in Hv'. apply in_app_iff. simpl. tauto.
    + intros c Hc'.
      rewrite post_ids_update by (intros; reflexivity). auto.
    + intros pid d. simpl. rewrite E2. specialize (H1 pid d).
      rewrite E1 in H1. rewrite filter_app, length_app in *. simpl in H1.
      destruct (by_post_device pid d e); simpl in H1; lia.
  - constructor; simpl; auto.
    + unfold unique_ids.
      rewrite map_id_update_first by (intros; reflexivity). exact Hp.
    + apply unique_ids_app_one; assumption.
    + intros v Hv'.
      rewrite post_ids_update by (intros; reflexivity). auto.
    + intros c' Hc'.
      rewrite post_ids_update by (intros; reflexivity).
      apply in_app_iff in Hc' as [Hc'|[<-|[]]]; auto.
Qed.

(** Every write keeps the counters of the posts in step with the
    records: a post whose counters agreed before still agrees, and a new
    post starts in agreement. *)
Lemma store_step_consistent seeded s s' :
  store_ok s -> counter_consistent_except seeded s -> store_step s s' ->
  counter_consistent_except seeded s'.
Proof.
  intros [Hp Hv Hc Hvr Hcr H1] Hcons Hstep.
  destruct Hstep as [p Hfresh Hv0 Hc0 | v now Hpid Hnone Hfresh
                    | e now Hin | c now Hpid Hfresh];
    intros q Hq Hseed; simpl in Hq.
  - apply in_app_iff in Hq as [Hq|[<-|[]]].
    + apply (Hcons q Hq Hseed).
    + split; unfold votes_for, comments_for; simpl.
      * rewrite Hv0. symmetry. apply count_if_zero. intros v Hv'.
        unfold vote_of_post. apply N.eqb_neq. intros E. apply Hfresh.
        rewrite <- E. apply Hvr, Hv'.
      * rewrite Hc0. symmetry. apply count_if_zero. intros c Hc'.
        unfold by_post. apply N.eqb_neq. intros E. apply Hfresh.
        rewrite <- E. apply Hcr, Hc'.
  - apply In_update_first in Hq; [|exact Hp].
    unfold doc_id, Post_Document in Hq.
    unfold counters_agree, votes_for, comments_for. simpl.
    rewrite count_if_app, count_if_cons. unfold count_if at 2. simpl.
    destruct Hq as [[Hq Hne]|[q0 [Hq0 [Hid ->]]]].
    + destruct (Hcons q Hq Hseed) as [A B].
      unfold vote_of_post at 2.
      destruct (N.eqb_spec (Vote.post_id v) (Post._id q)) as [E|_];
        [congruence|].
      unfold votes_for in A. unfold comments_for in B. split; [lia|exact B].
    + destruct (Hcons q0 Hq0 Hseed) as [A B].
      unfold vote_of_post at 2. simpl. rewrite Hid, N.eqb_refl.
      unfold votes_for in A. unfold comments_for in B. rewrite Hid in *.
      split; [lia|exact B].
  - destruct (remove_first_by_id _ _ Hv Hin) as [l1 [l2 [E1 E2]]].
    change (doc_id e) with (Vote._id e) in E2.
    apply In_update_first in Hq; [|exact Hp].
    unfold doc_id, Post_Document in Hq.
    unfold counters_agree, votes_for, comments_for. simpl.
    rewrite E2, count_if_app.
    assert (Hall : forall pid, votes_for s pid =
              count_if (vote_of_post pid) l1
              + (if vote_of_post pid e then 1 else 0)
              + count_if (vote_of_post pid) l2).
    { intros pid. unfold votes_for. rewrite E1, count_if_app, count_if_cons.
      lia. }
    destruct Hq as [[Hq Hne]|[q0 [Hq0 [Hid ->]]]].
    + destruct (Hcons q Hq Hseed) as [A B]. rewrite Hall in A.
      unfold vote_of_post at 2 in A.
      destruct (N.eqb_spec (Vote.post_id e) (Post._id q)) as [E|_];
        [congruence|].
      split; [lia|exact B].
    + destruct (Hcons q0 Hq0 Hseed) as [A B]. rewrite Hall in A.
      unfold vote_of_post at 2 in A. simpl. rewrite Hid in *.
      rewrite N.eqb_refl in A. split; [lia|exact B].
  - apply In_update_first in Hq; [|exact Hp].
    unfold doc_id, Post_Document in Hq.
    unfold counters_agree, votes_for, comments_for. simpl.
    rewrite count_if_app, count_if_cons. unfold count_if at 3. simpl.
    destruct Hq as [[Hq Hne]|[q0 [Hq0 [Hid ->]]]].
    + destruct (Hcons q Hq Hseed) as [A B].
      unfold by_post at 2.
      destruct (N.eqb_spec (Comment.post_id c) (Post._id q)) as [E|_];
        [congruence|].
      unfold votes_for in A. unfold comments_for in B. split; [exact A|lia].
    + destruct (Hcons q0 Hq0 Hseed) as [A B].
      unfold by_post at 2. simpl. rewrite Hid, N.eqb_refl.
      unfold votes_for in A. unfold comments_for in B. rewrite Hid in *.
      split; [exact A|lia].
Qed.

Lemma filter_remove_first_le {D} (g f : D -> bool) (l : list D) :
  (List.length (filter g (remove_first f l)) <= List.length (filter g l))%nat.
Proof.
  induction l as [|d l IH]; simpl; [lia|].
  destruct (f d); simpl; destruct (g d); simpl; lia.
Qed.

(** The uniqueness of votes alone is kept by every write. *)
Lemma store_step_one_vote s s' :
  one_vote_per_device s -> store_step s s' -> one_vote_per_device s'.
Proof.
  intros H1 Hstep pid d.
  destruct Hstep as [p _ _ _ | v now _ Hnone _ | e now _ | c now _]; simpl;
    try apply H1.
  - rewrite filter_app, length_app. simpl.
    destruct (by_post_device pid d v) eqn:E; simpl.
    + apply by_post_device_true in E as [<- <-].
      rewrite (find_None_filter _ _ Hnone). simpl. lia.
    + specialize (H1 pid d). lia.
  - specialize (H1 pid d).
    pose proof (filter_remove_first_le (by_post_device pid d)
                  (by_id (Vote._id e)) (vote s)). lia.
Qed.

Lemma store_step_posts s s' : store_step s s' -> post s <> [] -> post s' <> [].
Proof.
  intros Hstep Hne.
  destruct Hstep as [p _ _ _ | v now _ _ _ | e now _ | c now _]; simpl.
  - destruct (post s); discriminate.
  - destruct (post s) as [|q l]; [congruence|]. simpl.
    destruct (by_id _ q); discriminate.
  - destruct (post s) as [|q l]; [congruence|]. simpl.
    destruct (by_id _ q); discriminate.
  - destruct (post s) as [|q l]; [congruence|]. simpl.
    destruct (by_id _ q); discriminate.
Qed.

(** ** Seeding *)

Lemma one_vote_two (v1 v2 : Vote.t) :
  Vote.post_id v1 <> Vote.post_id v2 ->
  forall pid d,
    (List.length (filter (by_post_device pid d) [v1; v2]) <= 1)%nat.
Proof.
  intros Hne pid d. simpl.
  destruct (by_post_device pid d v1) eqn:E1;
    destruct (by_post_device pid d v2) eqn:E2; simpl; try lia.
  apply by_post_device_true in E1 as [E1 _].
  apply by_post_device_true in E2 as [E2 _]. congruence.
Qed.

Lemma one_vote_one (v : Vote.t) pid d :
  (List.length (filter (by_post_device pid d) [v]) <= 1)%nat.
Proof. simpl. destruct (by_post_device pid d v); simpl; lia. Qed.

(** A well-formed store without posts is the empty store. *)
Lemma store_ok_no_posts s : store_ok s -> post s = [] -> s = empty_store.
Proof.
  intros [_ _ _ Hvr Hcr _] Hp. destruct s as [ps cs vs].
  unfold post_ids in *. simpl in *. subst ps. unfold empty_store.
  f_equal.
  - destruct cs as [|c cs]; [reflexivity|]. destruct (Hcr c). left. reflexivity.
  - destruct vs as [|v vs]; [reflexivity|]. destruct (Hvr v). left. reflexivity.
Qed.

Section Seeding.
Context {L : Lib}.

(** Whatever ids the driver generates, seeding the empty store leaves a
    well-formed store that holds at least the first sample. *)
Lemma on_start_empty clk t ids n :
  exists s',
    db (snd (on_start (mkWorld (Some empty_store) clk t ids n))) = Some s' /\
    store_ok s' /\ post s' <> [].
Proof.
  repeat (cbv -[N.eqb Z.sub timedelta_days timedelta_hours];
          match goal with
          | |- context [(?a =? ?b)%N] => destruct (N.eqb_spec a b)
          end).
  all: cbv -[N.eqb Z.sub timedelta_days timedelta_hours].
  all: eexists; split; [reflexivity|]; split; [|discriminate].
  all: constructor; unfold unique_ids, post_ids; cbn.
  all: try (intros ? []; fail).
  all: try (repeat constructor; cbn; intuition congruence).
  - intros v [<-|[]]. cbn. auto.
  - intros pid d. cbn [vote]. apply one_vote_one.
  - intros v [<-|[<-|[]]]; cbn; auto.
  - intros pid d. cbn [vote]. apply one_vote_two. cbn. assumption.
Qed.

(** Seeding does nothing to a store that has posts. *)
Lemma on_start_nonempty w s :
  db w = Some s -> post s <> [] -> db (snd (on_start w)) = Some s.
Proof.
  open_world w d. intros -> Hne. unfold on_start, seed_posts. run.
  destruct (post s) as [|p l]; [congruence|]. reflexivity.
Qed.

Lemma on_start_None w : db w = None -> db (snd (on_start w)) = None.
Proof.
  open_world w d. intros ->. reflexivity.
Qed.

Lemma on_start_db w s :
  db w = Some s -> store_ok s ->
  exists s', db (snd (on_start w)) = Some s' /\
             (s' = s \/ (post s = [] /\ store_ok s' /\ post s' <> [])).
Proof.
  intros Hdb Hok. destruct (post s) as [|p l] eqn:Hp.
  - pose proof (store_ok_no_posts _ Hok Hp) as ->.
    open_world w d. subst d.
    destruct (on_start_empty clock0 ticks0 objectids0 issued0)
      as [s' [E [Hok' Hne]]].
    exists s'. split; [exact E|]. right. auto.
  - exists s. split; [|left; reflexivity].
    apply on_start_nonempty; [exact Hdb|]. rewrite Hp. discriminate.
Qed.

(** ** Runs *)

(** Each request leaves a well-formed store well formed. *)
Lemma serve_ok r w s :
  db w = Some s -> store_ok s ->
  exists s', db (serve r w) = Some s' /\ store_ok s'.
Proof.
  intros Hdb Hok. destruct r; simpl.
  - destruct (on_start_db _ _ Hdb Hok) as [s' [E Hcase]].
    exists s'. split; [exact E|]. destruct Hcase as [->|[_ [Hok' _]]]; auto.
  - rewrite list_posts_db. eauto.
  - rewrite get_post_db. eauto.
  - destruct (create_post_db data _ _ Hdb) as [s' [E Hcase]].
    exists s'. split; [exact E|]. destruct Hcase as [->|Hstep]; auto.
    apply (store_step_ok _ _ Hok Hstep).
  - destruct (toggle_vote_db post_id payload _ _ Hdb) as [s' [E Hcase]].
    exists s'. split; [exact E|]. destruct Hcase as [->|Hstep]; auto.
    apply (store_step_ok _ _ Hok Hstep).
  - rewrite list_comments_db. eauto.
  - destruct (add_comment_db post_id payload _ _ Hdb) as [s' [E Hcase]].
    exists s'. split; [exact E|]. destruct Hcase as [->|Hstep]; auto.
    apply (store_step_ok _ _ Hok Hstep).
Qed.

Lemma serve_all_ok rs : forall w s,
  db w = Some s -> store_ok s ->
  exists s', db (serve_all rs w) = Some s' /\ store_ok s'.
Proof.
  induction rs as [|r rs IH]; intros w s Hdb Hok; simpl.
  - eauto.
  - destruct (serve_ok r _ _ Hdb Hok) as [s1 [E1 Hok1]].
    apply (IH _ _ E1 Hok1).
Qed.

(** Every reachable store is well formed. *)
Lemma reachable_ok w s : reachable w -> db w = Some s -> store_ok s.
Proof.
  intros [w0 [rs [H0 ->]]] Hdb.
  destruct (serve_all_ok rs _ _ H0 store_ok_empty) as [s' [E Hok]].
  congruence.
Qed.

End Seeding.

(** ** The handlers, claim by claim *)

Section Claims.
Context {L : Lib}.

(** C4. For a well-formed post id that matches no existing Post,
    [toggle_vote] and [add_comment] both fail with NotFound (status 404),
    and nothing changes: no Vote, no Comment, no counter, the whole world is
    as before the call. *)
Theorem missing_post_not_found w s post_id pid :
  db w = Some s ->
  ObjectId_of_str post_id = Some pid ->
  ~ In pid (post_ids s) ->
  (forall payload,
     toggle_vote post_id payload w
     = (Raise (HTTPException 404 "Post not found"), w)) /\
  (forall payload,
     add_comment post_id payload w
     = (Raise (HTTPException 404 "Post not found"), w)).
Proof.
  intros Hdb Hpid Hnone.
  apply (find_by_id_None pid (post s)) in Hnone.
  open_world w d. subst d.
  split; intros payload.
  - unfold toggle_vote. run. rewrite Hpid. run. rewrite Hnone. reflexivity.
  - unfold add_comment. run. rewrite Hpid. run. rewrite Hnone. reflexivity.
Qed.

(** C9.  An id string that the id constructor rejects makes [add_comment]
    and [list_comments] fail with InvalidId (status 400) whatever the state
    of the store, and [toggle_vote] and [get_post] do so when the store is
    available; [toggle_vote] on an unavailable store fails with status 500
    first.  The world is unchanged in each case. *)
Theorem invalid_id_rejected w post_id :
  ObjectId_of_str post_id = None ->
  (forall payload,
     add_comment post_id payload w
     = (Raise (HTTPException 400 "Invalid id"), w)) /\
  list_comments post_id w = (Raise (HTTPException 400 "Invalid id"), w) /\
  (db w <> None ->
     (forall payload,
        toggle_vote post_id payload w
        = (Raise (HTTPException 400 "Invalid id"), w)) /\
     get_post post_id w = (Raise (HTTPException 400 "Invalid id"), w)) /\
  (db w = None ->
     forall payload,
       toggle_vote post_id payload w
       = (Raise (HTTPException 500 "Database not available"), w)).
Proof.
  intros Hbad. open_world w d.
  split; [|split; [|split]].
  - intros payload. unfold add_comment. run. rewrite Hbad. reflexivity.
  - unfold list_comments. run. rewrite Hbad. reflexivity.
  - intros Hd. destruct d as [s|]; [|congruence]. split.
    + intros payload. unfold toggle_vote. run. rewrite Hbad. reflexivity.
    + unfold get_post. run. rewrite Hbad. reflexivity.
  - intros -> payload. reflexivity.
Qed.

(** C10.  On an available store (and with a generated id the collection
    does not hold yet) [create_post] stores and returns a Post with
    [votes_count = 0] and [comments_count = 0], title and tagline stripped,
    maker and url [None] when absent or empty after stripping, and
    [created_at], [updated_at] read from the clock during the call.  A title
    or tagline of whitespace only is accepted and stored as the empty
    string. *)
Theorem create_post_stores_trimmed w s data :
  db w = Some s ->
  ~ In (objectids w (issued w)) (post_ids s) ->
  exists p w',
    create_post data w = (Return (serialize_post p), w') /\
    db w' = Some (mkStore (post s ++ [p]) (comment s) (vote s)) /\
    Post._id p = objectids w (issued w) /\
    Post.votes_count p = 0 /\ Post.comments_count p = 0 /\
    Post.title p = strip (PostCreate.title data) /\
    Post.tagline p = strip (PostCreate.tagline data) /\
    Post.created_at p = clock w (ticks w) /\
    Post.updated_at p = clock w (S (ticks w)) /\
    (all_space (PostCreate.title data) = true -> Post.title p = "") /\
    (all_space (PostCreate.tagline data) = true -> Post.tagline p = "") /\
    (PostCreate.maker data = None -> Post.maker p = None) /\
    (PostCreate.url data = None -> Post.url p = None) /\
    (forall m, PostCreate.maker data = Some m ->
       Post.maker p = if all_space m then None else Some (strip m)) /\
    (forall u, PostCreate.url data = Some u ->
       Post.url p = if all_space u then None else Some (strip u)).
Proof.
  intros Hdb Hfresh. open_world w d. subst d.
  apply (existsb_by_id_false _ (post s)) in Hfresh.
  unfold create_post. run. rewrite Hfresh. run.
  eexists. eexists. split; [reflexivity|]. cbn.
  repeat split.
  - apply strip_all_space.
  - apply strip_all_space.
  - intros ->. reflexivity.
  - intros ->. reflexivity.
  - intros m ->. apply or_None_strip.
  - intros u ->. apply or_None_strip.
Qed.

(** C5.  On an existing post (and with a generated id the collection
    does not hold yet) [add_comment] strips the content and inserts the
    Comment whatever is left, the empty string included: no validation error
    is raised, the Comment is stored and returned, and [comments_count] of
    the post goes up by one. *)
Theorem add_comment_trims_and_inserts w s post_id payload pid p :
  db w = Some s ->
  ObjectId_of_str post_id = Some pid ->
  find (by_id pid) (post s) = Some p ->
  ~ In (objectids w (issued w)) (map Comment._id (comment s)) ->
  exists c w' s',
    add_comment post_id payload w = (Return (serialize_comment c), w') /\
    db w' = Some s' /\
    comment s' = comment s ++ [c] /\
    vote s' = vote s /\
    Comment.post_id c = pid /\
    Comment.content c = strip (CommentCreate.content payload) /\
    (all_space (CommentCreate.content payload) = true ->
       Comment.content c = "") /\
    exists p',
      find (by_id pid) (post s') = Some p' /\
      Post.comments_count p' = Post.comments_count p + 1 /\
      Post.votes_count p' = Post.votes_count p.
Proof.
  intros Hdb Hpid Hp Hfresh. open_world w d. subst d.
  apply (existsb_by_id_false _ (comment s)) in Hfresh.
  unfold add_comment. run. rewrite Hpid. run. rewrite Hp. run.
  rewrite Hfresh. run.
  eexists. eexists. eexists. split; [reflexivity|]. cbn.
  repeat split.
  - apply strip_all_space.
  - eexists. split.
    + apply find_update_first; [intros; reflexivity|exact Hp].
    + split; reflexivity.
Qed.

End Claims.

(** ** Alternation of toggles *)

Lemma find_app_one {D} (f : D -> bool) (l : list D) x :
  find f l = None -> find f (l ++ [x]) = if f x then Some x else None.
Proof.
  induction l as [|d l IH]; simpl; [reflexivity|].
  destruct (f d); [discriminate|exact IH].
Qed.

Lemma remove_first_app_one {D} `{Document D} (l : list D) x :
  ~ In (doc_id x) (map doc_id l) ->
  remove_first (by_id (doc_id x)) (l ++ [x]) = l.
Proof.
  induction l as [|d l IH]; simpl; intros Hn.
  - unfold by_id. rewrite N.eqb_refl. reflexivity.
  - destruct (by_id (doc_id x) d) eqn:E.
    + apply by_id_true in E. exfalso. apply Hn. left. exact E.
    + f_equal. apply IH. intros Hin. apply Hn. right. exact Hin.
Qed.

Section Alternation.
Context {L : Lib}.
Variables (post_id : str) (payload : VoteToggle.t) (pid : ObjectId).
Variables (s : Store) (v0 : Z).
Hypothesis Hpid : ObjectId_of_str post_id = Some pid.
Hypothesis Hnone :
  find (by_post_device pid (VoteToggle.device_id payload)) (vote s) = None.

Let dev := VoteToggle.device_id payload.

(** A toggle with the vote out puts it in. *)
Lemma toggle_in w s' :
  db w = Some s' -> toggled false s pid dev v0 s' ->
  ~ In (objectids w (issued w)) (map Vote._id (vote s)) ->
  exists w' s'',
    toggle_vote post_id payload w = (Return (VoteOut.mk true (v0 + 1)), w') /\
    db w' = Some s'' /\ toggled true s pid dev v0 s'' /\
    objectids w' = objectids w /\ issued w' = S (issued w).
Proof.
  intros Hdb [Hc [[p' [Hp' Hv']] Hvotes]] Hfresh.
  open_world w d. subst d. cbn in Hvotes.
  apply (existsb_by_id_false _ (vote s)) in Hfresh.
  unfold toggle_vote. run. rewrite Hpid. run. rewrite Hp'. run.
  rewrite Hvotes, Hnone. run. rewrite Hvotes, Hfresh. run.
  erewrite find_update_first by (first [eassumption | intros; reflexivity]).
  eexists. eexists. split.
  { apply f_equal2; [|reflexivity]. cbn. rewrite Hv'. do 2 f_equal. lia. }
  split; [reflexivity|]. split; [|split; reflexivity].
  - split; [exact Hc|]. split.
    + eexists. split.
      * apply find_update_first; [intros; reflexivity|exact Hp'].
      * cbn. lia.
    + cbn. eexists. split; [reflexivity|]. cbn.
      repeat split. apply (existsb_by_id_false _ (vote s)). exact Hfresh.
Qed.

(** A toggle with the vote in takes it out. *)
Lemma toggle_out w s' :
  db w = Some s' -> toggled true s pid dev v0 s' ->
  exists w' s'',
    toggle_vote post_id payload w = (Return (VoteOut.mk false v0), w') /\
    db w' = Some s'' /\ toggled false s pid dev v0 s'' /\
    objectids w' = objectids w /\ issued w' = issued w.
Proof.
  intros Hdb [Hc [[p' [Hp' Hv']] [v [Hvotes [Hvp [Hvd Hvid]]]]]].
  open_world w d. subst d.
  unfold toggle_vote. run. rewrite Hpid. run. rewrite Hp'. run.
  rewrite Hvotes, (find_app_one _ _ _ Hnone).
  assert (Hb : by_post_device pid (VoteToggle.device_id payload) v = true).
  { apply by_post_device_true. auto. }
  rewrite Hb. run.
  erewrite find_update_first by (first [eassumption | intros; reflexivity]).
  eexists. eexists. split.
  { apply f_equal2; [|reflexivity]. cbn. rewrite Hv'. do 2 f_equal. lia. }
  split; [reflexivity|]. split; [|split; reflexivity].
  - split; [exact Hc|]. split.
    + eexists. split.
      * apply find_update_first; [intros; reflexivity|exact Hp'].
      * cbn. lia.
    + cbn. rewrite Hvotes. apply (remove_first_app_one (vote s) v Hvid).
Qed.

Variable w : World.
Hypothesis Hdb : db w = Some s.
Hypothesis Hpost :
  exists p, find (by_id pid) (post s) = Some p /\ Post.votes_count p = v0.
Hypothesis Hfresh :
  forall j, (issued w <= j)%nat ->
            ~ In (objectids w j) (map Vote._id (vote s)).

Lemma toggle_times_state k :
  exists s',
    db (toggle_times k post_id payload w) = Some s' /\
    toggled (Nat.odd k) s pid dev v0 s' /\
    objectids (toggle_times k post_id payload w) = objectids w /\
    (issued w <= issued (toggle_times k post_id payload w))%nat.
Proof.
  induction k as [|k [s' [Hs' [Ht [Ho Hi]]]]].
  - exists s. split; [exact Hdb|]. split; [|split; [reflexivity|cbn; lia]].
    destruct Hpost as [p [Hp Hv]].
    split; [reflexivity|]. split; [|reflexivity].
    exists p. split; [exact Hp|]. cbn. lia.
  - cbn [toggle_times]. rewrite Nat.odd_succ, <- Nat.negb_odd.
    destruct (Nat.odd k).
    + destruct (toggle_out _ _ Hs' Ht) as [w' [s'' [E [D [T [O I]]]]]].
      rewrite E. cbn [snd negb]. exists s''.
      split; [exact D|]. split; [exact T|]. split; [congruence|lia].
    + assert (Hf : ~ In (objectids (toggle_times k post_id payload w)
                           (issued (toggle_times k post_id payload w)))
                        (map Vote._id (vote s))).
      { rewrite Ho. apply Hfresh. exact Hi. }
      destruct (toggle_in _ _ Hs' Ht Hf) as [w' [s'' [E [D [T [O I]]]]]].
      rewrite E. cbn [snd negb]. exists s''.
      split; [exact D|]. split; [exact T|]. split; [congruence|lia].
Qed.

Lemma toggle_response_alternates k :
  (1 <= k)%nat ->
  toggle_response k post_id payload w
  = Return (VoteOut.mk (Nat.odd k) (v0 + if Nat.odd k then 1 else 0)).
Proof.
  intros Hk. destruct k as [|k]; [lia|]. unfold toggle_response. cbn [pred].
  destruct (toggle_times_state k) as [s' [Hs' [Ht [Ho Hi]]]].
  rewrite Nat.odd_succ, <- Nat.negb_odd.
  destruct (Nat.odd k).
  - destruct (toggle_out _ _ Hs' Ht) as [w' [s'' [E _]]].
    rewrite E. cbn. do 2 f_equal. lia.
  - assert (Hf : ~ In (objectids (toggle_times k post_id payload w)
                         (issued (toggle_times k post_id payload w)))
                      (map Vote._id (vote s))).
    { rewrite Ho. apply Hfresh. exact Hi. }
    destruct (toggle_in _ _ Hs' Ht Hf) as [w' [s'' [E _]]].
    rewrite E. reflexivity.
Qed.

End Alternation.

Section Invariants.
Context {L : Lib}.

(** C1.  For an existing post and a device that holds no vote on it when
    the row of calls starts (the store available, the generated ids new to
    the vote collection), call number [k] of [toggle_vote] answers
    [voted = true] for odd [k] and [voted = false] for even [k], each time
    with the count as updated by that call; after [n] calls [votes_count]
    is up by one for odd [n] and back at its start value for even [n]. *)
Theorem toggle_vote_alternates w s post_id payload pid p :
  db w = Some s ->
  ObjectId_of_str post_id = Some pid ->
  find (by_id pid) (post s) = Some p ->
  find (by_post_device pid (VoteToggle.device_id payload)) (vote s) = None ->
  (forall j, (issued w <= j)%nat ->
             ~ In (objectids w j) (map Vote._id (vote s))) ->
  forall n,
    (forall k, (1 <= k <= n)%nat ->
       toggle_response k post_id payload w
       = Return (VoteOut.mk (Nat.odd k)
                   (Post.votes_count p + if Nat.odd k then 1 else 0))) /\
    exists s' p',
      db (toggle_times n post_id payload w) = Some s' /\
      find (by_id pid) (post s') = Some p' /\
      Post.votes_count p' = Post.votes_count p + if Nat.odd n then 1 else 0.
Proof.
  intros Hdb Hpid Hp Hnone Hfresh n.
  assert (Hpost : exists q, find (by_id pid) (post s) = Some q /\
                            Post.votes_count q = Post.votes_count p)
    by (exists p; auto).
  split.
  - intros k [Hk _].
    apply (toggle_response_alternates post_id payload pid s _ Hpid Hnone
             w Hdb Hpost Hfresh k Hk).
  - destruct (toggle_times_state post_id payload pid s _ Hpid Hnone
                w Hdb Hpost Hfresh n) as [s' [Hs' [[_ [[p' [Hp' Hv']] _]] _]]].
    exists s', p'. auto.
Qed.

Lemma serve_consistent seeded r w s :
  db w = Some s -> store_ok s -> counter_consistent_except seeded s ->
  is_Startup r = false \/ post s <> [] ->
  exists s', db (serve r w) = Some s' /\ store_ok s' /\
             counter_consistent_except seeded s' /\
             (post s <> [] -> post s' <> []).
Proof.
  intros Hdb Hok Hcons Hr.
  assert (Hstep : forall s', s' = s \/ store_step s s' ->
            store_ok s' /\ counter_consistent_except seeded s' /\
            (post s <> [] -> post s' <> [])).
  { intros s' [->|Hstep]; [auto|].
    split; [apply (store_step_ok _ _ Hok Hstep)|].
    split; [apply (store_step_consistent _ _ _ Hok Hcons Hstep)|].
    apply (store_step_posts _ _ Hstep). }
  destruct r; simpl.
  - destruct Hr as [Hr|Hne]; [discriminate|].
    exists s. rewrite (on_start_nonempty _ _ Hdb Hne). auto.
  - rewrite list_posts_db. eauto.
  - rewrite get_post_db. eauto.
  - destruct (create_post_db data _ _ Hdb) as [s' [E Hcase]]. eauto.
  - destruct (toggle_vote_db post_id payload _ _ Hdb) as [s' [E Hcase]]. eauto.
  - rewrite list_comments_db. eauto.
  - destruct (add_comment_db post_id payload _ _ Hdb) as [s' [E Hcase]]. eauto.
Qed.

Lemma serve_all_consistent seeded rs : forall w s,
  db w = Some s -> store_ok s -> counter_consistent_except seeded s ->
  no_Startup rs = true \/ post s <> [] ->
  exists s', db (serve_all rs w) = Some s' /\
             counter_consistent_except seeded s'.
Proof.
  induction rs as [|r rs IH]; intros w s Hdb Hok Hcons Hrs; simpl.
  - eauto.
  - assert (Hr : is_Startup r = false \/ post s <> []).
    { destruct Hrs as [Hrs|Hne]; [|auto]. left. simpl in Hrs.
      apply andb_true_iff in Hrs as [Hr _].
      destruct (is_Startup r); [discriminate|reflexivity]. }
    destruct (serve_consistent seeded r _ _ Hdb Hok Hcons Hr)
      as [s1 [E1 [Hok1 [Hcons1 Hne1]]]].
    apply (IH _ _ E1 Hok1 Hcons1).
    destruct Hrs as [Hrs|Hne]; [|auto]. left. simpl in Hrs.
    apply andb_true_iff in Hrs as [_ Hrs]. exact Hrs.
Qed.

(** C2.  In every state reached from the empty store by requests other
    than startup seeding, every Post has [votes_count] equal to the number
    of Votes and [comments_count] equal to the number of Comments that
    reference it; and in every state reached after seeding the empty store,
    the same holds of every Post other than the seeded samples. *)
Theorem counters_consistent_apart_from_seeds rs w0 :
  db w0 = Some empty_store ->
  (no_Startup rs = true ->
     forall s, db (serve_all rs w0) = Some s -> counter_consistent s) /\
  (forall s0 s,
     db (serve Startup w0) = Some s0 ->
     db (serve_all rs (serve Startup w0)) = Some s ->
     counter_consistent_except (post_ids s0) s).
Proof.
  intros H0. split.
  - intros Hrs s Hs.
    assert (Hc0 : counter_consistent_except [] empty_store)
      by (intros p []).
    destruct (serve_all_consistent [] rs _ _ H0 store_ok_empty Hc0
                (or_introl Hrs)) as [s' [E Hc]].
    assert (s' = s) as -> by congruence.
    intros p Hp. apply (Hc p Hp). intros [].
  - intros s0 s Hs0 Hs.
    destruct (on_start_db _ _ H0 store_ok_empty) as [s1 [E1 Hcase]].
    change (serve Startup w0) with (snd (on_start w0)) in Hs0.
    assert (s1 = s0) as -> by congruence.
    destruct Hcase as [->|[_ [Hok Hne]]].
    + (* seeding always inserts the first sample *)
      open_world w0 d. subst d.
      destruct (on_start_empty clock0 ticks0 objectids0 issued0)
        as [s2 [E2 [_ Hne2]]].
      rewrite E1 in E2. injection E2 as <-. exfalso. apply Hne2. reflexivity.
    + assert (Hc0 : counter_consistent_except (post_ids s0) s0).
      { intros p Hp Hn. exfalso. apply Hn. unfold post_ids.
        apply in_map. exact Hp. }
      destruct (serve_all_consistent (post_ids s0) rs _ _ Hs0 Hok Hc0
                  (or_intror Hne)) as [s' [E Hc]].
      change (snd (on_start w0)) with (serve Startup w0) in E.
      assert (s' = s) as -> by congruence. exact Hc.
Qed.

(** C3.  At most one Vote per (post_id, device_id) pair: [toggle_vote]
    keeps it so from any store, every request keeps it so from any
    well-formed store, and it holds in every reachable state. *)
Theorem one_vote_per_device_invariant :
  (forall post_id payload w s s',
     db w = Some s -> one_vote_per_device s ->
     db (snd (toggle_vote post_id payload w)) = Some s' ->
     one_vote_per_device s') /\
  (forall r w s s',
     db w = Some s -> store_ok s -> db (serve r w) = Some s' ->
     one_vote_per_device s') /\
  (forall w s, reachable w -> db w = Some s -> one_vote_per_device s).
Proof.
  split; [|split].
  - intros post_id payload w s s' Hdb H1 Hs'.
    destruct (toggle_vote_db post_id payload _ _ Hdb) as [s1 [E Hcase]].
    assert (s1 = s') as -> by congruence.
    destruct Hcase as [->|Hstep]; [exact H1|].
    apply (store_step_one_vote _ _ H1 Hstep).
  - intros r w s s' Hdb Hok Hs'.
    destruct (serve_ok r _ _ Hdb Hok) as [s1 [E Hok1]].
    assert (s1 = s') as -> by congruence. apply (ok_one_vote Hok1).
  - intros w s Hr Hdb. apply (ok_one_vote (reachable_ok _ _ Hr Hdb)).
Qed.

End Invariants.

(** ** Sorting *)

Section SortFacts.
Context {D : Type}.
Variable keys : sort_spec D.

Lemma key_compare_antisym a b :
  key_compare keys b a = CompOpp (key_compare keys a b).
Proof.
  induction keys as [|[f dir] ks IH]; simpl; [reflexivity|].
  destruct (dir <? 0).
  - rewrite (Z.compare_antisym (f b) (f a)).
    destruct (f b ?= f a); simpl; auto.
  - rewrite (Z.compare_antisym (f a) (f b)).
    destruct (f a ?= f b); simpl; auto.
Qed.

Lemma key_le_total a b : key_le keys a b = false -> key_le keys b a = true.
Proof.
  unfold key_le. rewrite (key_compare_antisym a b).
  destruct (key_compare keys a b); simpl; congruence.
Qed.

Lemma key_le_trans a b c :
  key_le keys a b = true -> key_le keys b c = true -> key_le keys a c = true.
Proof.
  unfold key_le. induction keys as [|[f dir] ks IH]; simpl; [reflexivity|].
  destruct (dir <? 0).
  - destruct (Z.compare_spec (f b) (f a)), (Z.compare_spec (f c) (f b)),
      (Z.compare_spec (f c) (f a));
      intros Hab Hbc; try discriminate; try reflexivity;
      try (exfalso; lia); auto.
  - destruct (Z.compare_spec (f a) (f b)), (Z.compare_spec (f b) (f c)),
      (Z.compare_spec (f a) (f c));
      intros Hab Hbc; try discriminate; try reflexivity;
      try (exfalso; lia); auto.
Qed.

Lemma sort_insert_perm x l : Permutation (sort_insert keys x l) (x :: l).
Proof.
  induction l as [|y l IH]; simpl; [reflexivity|].
  destruct (key_le keys x y); [reflexivity|].
  rewrite IH. apply perm_swap.
Qed.

Lemma sort_perm l : Permutation (sort keys l) l.
Proof.
  induction l as [|x l IH]; simpl; [reflexivity|].
  rewrite sort_insert_perm. constructor. exact IH.
Qed.

Lemma sort_insert_sorted x l :
  StronglySorted (before keys) l ->
  StronglySorted (before keys) (sort_insert keys x l).
Proof.
  induction 1 as [|y l Hl IH Hy]; simpl.
  - constructor; constructor.
  - destruct (key_le keys x y) eqn:E.
    + constructor; [constructor; assumption|].
      constructor; [exact E|].
      apply Forall_forall. intros z Hz. rewrite Forall_forall in Hy.
      apply (key_le_trans x y z E (Hy z Hz)).
    + constructor; [exact IH|].
      apply Forall_forall. intros z Hz.
      apply (Permutation_in _ (sort_insert_perm x l)) in Hz.
      destruct Hz as [<-|Hz].
      * apply key_le_total. exact E.
      * rewrite Forall_forall in Hy. apply Hy. exact Hz.
Qed.

Lemma sort_sorted l : StronglySorted (before keys) (sort keys l).
Proof.
  induction l as [|x l IH]; simpl; [constructor|].
  apply sort_insert_sorted. exact IH.
Qed.

(** In a sorted cursor, a document that comes earlier may come earlier. *)
Lemma sorted_before l1 a l2 b l3 l :
  StronglySorted (before keys) l -> l = l1 ++ a :: l2 ++ b :: l3 ->
  before keys a b.
Proof.
  intros Hs ->. induction l1 as [|x l1 IH]; simpl in Hs.
  - apply StronglySorted_inv in Hs as [_ Hall].
    rewrite Forall_forall in Hall. apply Hall.
    apply in_app_iff. right. left. reflexivity.
  - apply StronglySorted_inv in Hs as [Hs _]. apply IH. exact Hs.
Qed.

End SortFacts.

(** What [key_le] says for a descending key followed by a descending
    tie-break. *)
Lemma key_le_desc2 {D} (f g : D -> Z) a b :
  key_le [(f, -1); (g, -1)] a b = true ->
  f b <= f a /\ (f a = f b -> g b <= g a).
Proof.
  unfold key_le. simpl.
  destruct (Z.compare_spec (f b) (f a)); [|intros _; lia|discriminate].
  destruct (Z.compare_spec (g b) (g a)); intros; try discriminate; lia.
Qed.

Lemma key_le_desc1 {D} (f : D -> Z) a b :
  key_le [(f, -1)] a b = true -> f b <= f a.
Proof.
  unfold key_le. simpl.
  destruct (Z.compare_spec (f b) (f a)); intros; try discriminate; lia.
Qed.

(** ** Listings *)

Section Listings.
Context {L : Lib}.

(** What [list_posts] computes on an available store. *)
Lemma list_posts_run w s range sort_ :
  db w = Some s ->
  fst (list_posts range sort_ w)
  = Return (map serialize_post
      (sort [ (if String.eqb sort_ "comments" then (Post.comments_count, -1)
               else if String.eqb sort_ "latest" then (Post.created_at, -1)
               else (Post.votes_count, -1));
              (Post.created_at, -1) ]
         (filter (created_at_gte
                    (if String.eqb range "week"
                     then Some (next_now w - timedelta_days 7)
                     else if String.eqb range "month"
                     then Some (next_now w - timedelta_days 30)
                     else None))
            (post s)))).
Proof.
  open_world w d. intros ->. reflexivity.
Qed.

Lemma in_sorted_filter {D} (keys : sort_spec D) (f : D -> bool) l x :
  In x (sort keys (filter f l)) <-> In x l /\ f x = true.
Proof.
  rewrite <- filter_In. split; apply Permutation_in.
  - apply sort_perm.
  - symmetry. apply sort_perm.
Qed.

(** C6.  [list_posts] returns the posts created at or after a lower
    bound set by [range]: now minus 7 days for ["week"], now minus 30 days
    for ["month"], none for any other value.  A post created 7 days and 1
    second ago is left out of the week, one created 6 days 23 hours ago is
    in it, and a post dated in the future is never left out. *)
Theorem list_posts_range_filter w s range sort_ :
  db w = Some s ->
  exists items,
    fst (list_posts range sort_ w) = Return (map serialize_post items) /\
    (range = "week" ->
       forall p, In p items <->
         In p (post s) /\
         next_now w - timedelta_days 7 <= Post.created_at p) /\
    (range = "month" ->
       forall p, In p items <->
         In p (post s) /\
         next_now w - timedelta_days 30 <= Post.created_at p) /\
    (range <> "week" -> range <> "month" ->
       forall p, In p items <-> In p (post s)) /\
    (forall p, In p (post s) -> next_now w <= Post.created_at p ->
               In p items) /\
    (range = "week" ->
       forall p,
         Post.created_at p
         = next_now w - (timedelta_days 7 + timedelta_seconds 1) ->
         ~ In p items) /\
    (range = "week" ->
       forall p, In p (post s) ->
         Post.created_at p
         = next_now w - (timedelta_days 6 + timedelta_hours 23) ->
         In p items).
Proof.
  intros Hdb. eexists. split; [apply (list_posts_run _ _ _ _ Hdb)|].
  unfold timedelta_days, timedelta_hours, timedelta_seconds.
  split; [|split; [|split; [|split; [|split]]]].
  - intros -> p. rewrite in_sorted_filter. simpl. rewrite Z.leb_le.
    reflexivity.
  - intros -> p. rewrite in_sorted_filter. simpl. rewrite Z.leb_le.
    reflexivity.
  - intros Hw Hm p. rewrite in_sorted_filter.
    apply String.eqb_neq in Hw, Hm. rewrite Hw, Hm. simpl. tauto.
  - intros p Hp Hnow. rewrite in_sorted_filter. split; [exact Hp|].
    destruct (String.eqb range "week"); [|destruct (String.eqb range "month")];
      simpl; try reflexivity; apply Z.leb_le; lia.
  - intros -> p Hc. rewrite in_sorted_filter. simpl. rewrite Z.leb_le.
    intros [_ Hle]. lia.
  - intros -> p Hp Hc. rewrite in_sorted_filter. simpl. rewrite Z.leb_le.
    split; [exact Hp|lia].
Qed.

(** C7.  [list_posts] returns the posts that pass the range filter, each
    once, ordered by the key [sort] selects, descending ([comments_count]
    for ["comments"], [created_at] for ["latest"], [votes_count] otherwise),
    and posts equal on that key by [created_at] descending: of two returned
    posts the earlier one has the larger or equal key and, on equal keys,
    the later or equal creation date. *)
Theorem list_posts_order w s range sort_ :
  db w = Some s ->
  exists items,
    fst (list_posts range sort_ w) = Return (map serialize_post items) /\
    (range = "week" ->
       Permutation items
         (filter (fun p => next_now w - timedelta_days 7 <=? Post.created_at p)
            (post s))) /\
    (range = "month" ->
       Permutation items
         (filter (fun p => next_now w - timedelta_days 30 <=? Post.created_at p)
            (post s))) /\
    (range <> "week" -> range <> "month" -> Permutation items (post s)) /\
    forall l1 a l2 b l3, items = l1 ++ a :: l2 ++ b :: l3 ->
      (sort_ = "comments" ->
         Post.comments_count b <= Post.comments_count a /\
         (Post.comments_count a = Post.comments_count b ->
          Post.created_at b <= Post.created_at a)) /\
      (sort_ = "latest" -> Post.created_at b <= Post.created_at a) /\
      (sort_ <> "comments" -> sort_ <> "latest" ->
         Post.votes_count b <= Post.votes_count a /\
         (Post.votes_count a = Post.votes_count b ->
          Post.created_at b <= Post.created_at a)).
Proof.
  intros Hdb. eexists. split; [apply (list_posts_run _ _ _ _ Hdb)|].
  split; [|split; [|split]].
  - intros ->. cbn [String.eqb Ascii.eqb Bool.eqb]. apply sort_perm.
  - intros ->. cbn [String.eqb Ascii.eqb Bool.eqb]. apply sort_perm.
  - intros Hw Hm. apply String.eqb_neq in Hw, Hm. rewrite Hw, Hm.
    rewrite sort_perm.
    change (created_at_gte None) with (fun _ : Post.t => true).
    induction (post s) as [|q l IH]; simpl; [reflexivity|].
    constructor. exact IH.
  - intros l1 a l2 b l3 E.
    pose proof (sorted_before _ l1 a l2 b l3 _ (sort_sorted _ _) E) as Hab.
    split; [|split].
    + intros ->. simpl in Hab. apply key_le_desc2. exact Hab.
    + intros ->. simpl in Hab. apply key_le_desc2 in Hab. tauto.
    + intros Hc Hl. apply String.eqb_neq in Hc, Hl. rewrite Hc, Hl in Hab.
      apply key_le_desc2. exact Hab.
Qed.

(** C8.  For a well-formed post id [list_comments] returns exactly the
    Comments whose [post_id] matches, newest first, and changes nothing;
    it does not look the post up, and where no Post has that id the result
    is the empty sequence, not an error. *)
Theorem list_comments_newest_first w s post_id pid :
  db w = Some s ->
  ObjectId_of_str post_id = Some pid ->
  exists items,
    list_comments post_id w = (Return (map serialize_comment items), w) /\
    Permutation items (filter (by_post pid) (comment s)) /\
    (forall c, In c items <-> In c (comment s) /\ Comment.post_id c = pid) /\
    (forall l1 a l2 b l3, items = l1 ++ a :: l2 ++ b :: l3 ->
       Comment.created_at b <= Comment.created_at a) /\
    (reachable w -> ~ In pid (post_ids s) -> items = []).
Proof.
  intros Hdb Hpid. eexists. split; [|split; [|split; [|split]]].
  - open_world w d. subst d. unfold list_comments. run. rewrite Hpid.
    reflexivity.
  - apply sort_perm.
  - intros c. rewrite in_sorted_filter. unfold by_post. rewrite N.eqb_eq.
    reflexivity.
  - intros l1 a l2 b l3 E.
    apply key_le_desc1.
    apply (sorted_before _ l1 a l2 b l3 _ (sort_sorted _ _) E).
  - intros Hr Hnone.
    pose proof (reachable_ok _ _ Hr Hdb) as Hok.
    assert (E : filter (by_post pid) (comment s) = []).
    { destruct (filter (by_post pid) (comment s)) as [|c l] eqn:Ef;
        [reflexivity|].
      assert (Hc : In c (filter (by_post pid) (comment s)))
        by (rewrite Ef; left; reflexivity).
      apply filter_In in Hc as [Hc Hb]. unfold by_post in Hb.
      apply N.eqb_eq in Hb. exfalso. apply Hnone. rewrite <- Hb.
      apply (ok_comment_refs Hok c Hc). }
    rewrite E. reflexivity.
Qed.

End Listings.

(** ** The theorems at work on concrete worlds *)

Lemma toggle_vote_alternates_witness :
  db demo_world = Some demo_store /\
  ObjectId_of_str (Lib:=hex_lib) id_1 = Some 1%N /\
  find (by_id 1%N) (post demo_store) = Some demo_post /\
  find (by_post_device 1%N "phone") (vote demo_store) = None /\
  toggle_response (L:=hex_lib) 1 id_1 (VoteToggle.mk "phone") demo_world
  = Return (VoteOut.mk true 1) /\
  toggle_response (L:=hex_lib) 2 id_1 (VoteToggle.mk "phone") demo_world
  = Return (VoteOut.mk false 0) /\
  toggle_response (L:=hex_lib) 3 id_1 (VoteToggle.mk "phone") demo_world
  = Return (VoteOut.mk true 1).
Proof.
  assert (H1 : db demo_world = Some demo_store) by (vm_compute; reflexivity).
  assert (H2 : ObjectId_of_str (Lib:=hex_lib) id_1 = Some 1%N)
    by (vm_compute; reflexivity).
  assert (H3 : find (by_id 1%N) (post demo_store) = Some demo_post)
    by (vm_compute; reflexivity).
  assert (H4 : find (by_post_device 1%N "phone") (vote demo_store) = None)
    by (vm_compute; reflexivity).
  assert (H5 : forall j, (issued demo_world <= j)%nat ->
                 ~ In (objectids demo_world j)
                      (map Vote._id (vote demo_store)))
    by (intros j _ []).
  destruct (toggle_vote_alternates (L:=hex_lib) demo_world demo_store id_1
              (VoteToggle.mk "phone") 1%N demo_post H1 H2 H3 H4 H5 3)
    as [Hk _].
  assert (R1 : (1 <= 1 <= 3)%nat) by lia.
  assert (R2 : (1 <= 2 <= 3)%nat) by lia.
  assert (R3 : (1 <= 3 <= 3)%nat) by lia.
  exact (conj H1 (conj H2 (conj H3 (conj H4
           (conj (Hk 1%nat R1) (conj (Hk 2%nat R2) (Hk 3%nat R3))))))).
Defined.

(** On the freshly seeded store the demo device already holds a vote on
    the first sample, which counts 28 votes: its first toggle answers
    [voted = false] with 27 votes, its second [voted = true] with 28. *)
Lemma toggle_vote_starts_by_unvoting :
  (exists p, find (by_id 1%N) (post seeded_store) = Some p /\
             Post.votes_count p = 28) /\
  toggle_response (L:=hex_lib) 1 id_1 (VoteToggle.mk "demo-device")
    seeded_world
  = Return (VoteOut.mk false 27) /\
  toggle_response (L:=hex_lib) 2 id_1 (VoteToggle.mk "demo-device")
    seeded_world
  = Return (VoteOut.mk true 28).
Proof.
  split; [|split]; [|vm_compute; reflexivity|vm_compute; reflexivity].
  eexists. split; (vm_compute; reflexivity).
Qed.

Lemma counters_consistent_apart_from_seeds_witness :
  db (world0 (Some empty_store)) = Some empty_store /\
  counter_consistent
    (mkStore [Post.mk 1%N "Idea" "" None None 1 0 1700000000000 1700000000004]
             []
             [Vote.mk 2%N 1%N "phone" 1700000000002 1700000000003]) /\
  counter_consistent_except (post_ids seeded_store) seeded_store.
Proof.
  assert (H0 : db (world0 (Some empty_store)) = Some empty_store)
    by (vm_compute; reflexivity).
  split; [exact H0|]. split.
  - apply (proj1 (counters_consistent_apart_from_seeds (L:=hex_lib)
                    [CreatePost (PostCreate.mk " Idea" " " None None);
                     ToggleVote id_1 (VoteToggle.mk "phone")]
                    (world0 (Some empty_store)) H0)); (vm_compute; reflexivity).
  - apply (proj2 (counters_consistent_apart_from_seeds (L:=hex_lib)
                    [] (world0 (Some empty_store)) H0));
      (vm_compute; reflexivity).
Defined.

(** Startup seeding itself breaks the agreement: the four samples are
    stored with [votes_count] 28, 41, 12, 33 and [comments_count] 6, 9, 2, 4
    next to two Votes (one on each of the first two samples) and no
    Comment.  Each quadruple below is (votes_count, Votes referencing the
    post, comments_count, Comments referencing the post). *)
Lemma seeding_breaks_counters :
  reachable (L:=hex_lib) seeded_world /\
  db seeded_world = Some seeded_store /\
  map (fun p => (Post.votes_count p, votes_for seeded_store (Post._id p),
                 Post.comments_count p,
                 comments_for seeded_store (Post._id p)))
      (post seeded_store)
  = [(28, 1, 6, 0); (41, 1, 9, 0); (12, 0, 2, 0); (33, 0, 4, 0)] /\
  ~ counter_consistent seeded_store.
Proof.
  split; [|split; [vm_compute; reflexivity|split; [vm_compute; reflexivity|]]].
  - exists (world0 (Some empty_store)), [Startup].
    split; [reflexivity|]. unfold seeded_world, serve_all. cbn [fold_left].
    reflexivity.
  - assert (Hp : exists p, In p (post seeded_store) /\
               Post.votes_count p = 28 /\
               votes_for seeded_store (Post._id p) = 1).
    { vm_compute. eexists. split; [left; reflexivity|]. split; reflexivity. }
    intros Hc. destruct Hp as [p [Hin [Hv Hn]]].
    destruct (Hc p Hin) as [Hagree _]. rewrite Hv, Hn in Hagree.
    discriminate.
Qed.

Lemma one_vote_per_device_invariant_witness :
  reachable (L:=hex_lib) seeded_world /\
  db seeded_world = Some seeded_store /\
  one_vote_per_device seeded_store /\
  one_vote_per_device
    (mkStore [Post.inc_votes_count 1 1700000000002 demo_post] []
             [Vote.mk 2%N 1%N "phone" 1700000000000 1700000000001]).
Proof.
  assert (Hr : reachable (L:=hex_lib) seeded_world).
  { exists (world0 (Some empty_store)), [Startup].
    split; [reflexivity|]. unfold seeded_world, serve_all. cbn [fold_left].
    reflexivity. }
  assert (Hd : db seeded_world = Some seeded_store)
    by (vm_compute; reflexivity).
  destruct (one_vote_per_device_invariant (L:=hex_lib)) as [Ht [_ Hreach]].
  split; [exact Hr|]. split; [exact Hd|]. split.
  - exact (Hreach seeded_world seeded_store Hr Hd).
  - apply (Ht id_1 (VoteToggle.mk "phone") demo_world demo_store).
    + vm_compute; reflexivity.
    + intros pid d. simpl. lia.
    + vm_compute; reflexivity.
Defined.

Lemma missing_post_not_found_witness :
  db demo_world = Some demo_store /\
  ObjectId_of_str (Lib:=hex_lib) "0000000000000000000000ff" = Some 255%N /\
  ~ In 255%N (post_ids demo_store) /\
  toggle_vote (L:=hex_lib) "0000000000000000000000ff" (VoteToggle.mk "phone")
    demo_world
  = (Raise (HTTPException 404 "Post not found"), demo_world) /\
  add_comment (L:=hex_lib) "0000000000000000000000ff"
    (CommentCreate.mk "hello" None None) demo_world
  = (Raise (HTTPException 404 "Post not found"), demo_world).
Proof.
  assert (H1 : db demo_world = Some demo_store) by (vm_compute; reflexivity).
  assert (H2 : ObjectId_of_str (Lib:=hex_lib) "0000000000000000000000ff"
               = Some 255%N) by (vm_compute; reflexivity).
  assert (H3 : ~ In 255%N (post_ids demo_store)).
  { simpl. intros [H|[]]. discriminate H. }
  destruct (missing_post_not_found (L:=hex_lib) demo_world demo_store
              "0000000000000000000000ff" 255%N H1 H2 H3) as [Ht Ha].
  exact (conj H1 (conj H2 (conj H3
           (conj (Ht (VoteToggle.mk "phone"))
                 (Ha (CommentCreate.mk "hello" None None)))))).
Defined.

Lemma add_comment_trims_and_inserts_witness :
  db demo_world = Some demo_store /\
  ObjectId_of_str (Lib:=hex_lib) id_1 = Some 1%N /\
  find (by_id 1%N) (post demo_store) = Some demo_post /\
  ~ In (objectids demo_world (issued demo_world))
       (map Comment._id (comment demo_store)) /\
  exists c w' s',
    add_comment (L:=hex_lib) id_1 (CommentCreate.mk "  nice idea " None None)
      demo_world
    = (Return (serialize_comment (L:=hex_lib) c), w') /\
    db w' = Some s' /\
    comment s' = [c] /\
    Comment.content c = "nice idea".
Proof.
  assert (H1 : db demo_world = Some demo_store) by reflexivity.
  assert (H2 : ObjectId_of_str (Lib:=hex_lib) id_1 = Some 1%N) by reflexivity.
  assert (H3 : find (by_id 1%N) (post demo_store) = Some demo_post)
    by reflexivity.
  assert (H4 : ~ In (objectids demo_world (issued demo_world))
                    (map Comment._id (comment demo_store)))
    by (intros []).
  destruct (add_comment_trims_and_inserts (L:=hex_lib) demo_world demo_store
              id_1 (CommentCreate.mk "  nice idea " None None) 1%N demo_post
              H1 H2 H3 H4)
    as [c [w' [s' [E [D [Hc [_ [_ [Hcontent _]]]]]]]]].
  refine (conj H1 (conj H2 (conj H3 (conj H4 _)))).
  exists c, w', s'.
  exact (conj E (conj D (conj Hc Hcontent))).
Defined.

(** A comment of blanks only is not rejected: it is stored with the empty
    string as content, returned, and counted. *)
Lemma add_comment_accepts_blank_content :
  strip "   " = "" /\
  fst (add_comment (L:=hex_lib) id_1 (CommentCreate.mk "   " None None)
         demo_world)
  = Return (CommentOut.mk "000000000000000000000002" 1%N None "" None
              "1700000000000" "1700000000001") /\
  db (snd (add_comment (L:=hex_lib) id_1 (CommentCreate.mk "   " None None)
             demo_world))
  = Some (mkStore
            [Post.mk 1%N "Idea" "A tagline" None None 0 1
               1699000000000 1700000000002]
            [Comment.mk 2%N 1%N None "" None 1700000000000 1700000000001]
            []).
Proof.
  split; [|split]; vm_compute; reflexivity.
Qed.

Lemma list_posts_range_filter_witness :
  db demo_world = Some demo_store /\
  exists items,
    fst (list_posts (L:=hex_lib) "month" "votes" demo_world)
    = Return (map (serialize_post (L:=hex_lib)) items) /\
    In demo_post items.
Proof.
  assert (H1 : db demo_world = Some demo_store) by reflexivity.
  destruct (list_posts_range_filter (L:=hex_lib) demo_world demo_store
              "month" "votes" H1) as [items [E [_ [Hmonth _]]]].
  split; [exact H1|]. exists items. split; [exact E|].
  apply (Hmonth eq_refl demo_post). split.
  - left. reflexivity.
  - vm_compute. discriminate.
Defined.

Lemma list_posts_order_witness :
  db tie_world = Some tie_store /\
  Post.votes_count older_post = Post.votes_count newer_post /\
  exists items,
    fst (list_posts (L:=hex_lib) "all" "votes" tie_world)
    = Return (map (serialize_post (L:=hex_lib)) items) /\
    items = [newer_post; older_post].
Proof.
  assert (H1 : db tie_world = Some tie_store) by reflexivity.
  destruct (list_posts_order (L:=hex_lib) tie_world tie_store
              "all" "votes" H1) as [items [E [_ [_ [Hall Hord]]]]].
  assert (Hw : "all" <> "week") by discriminate.
  assert (Hm : "all" <> "month") by discriminate.
  assert (Hc : "votes" <> "comments") by discriminate.
  assert (Hl : "votes" <> "latest") by discriminate.
  refine (conj H1 (conj eq_refl _)). exists items. split; [exact E|].
  pose proof (Hall Hw Hm) as Hperm. cbn [post tie_store] in Hperm.
  apply Permutation_sym, Permutation_length_2_inv in Hperm.
  destruct Hperm as [Hi|Hi]; [|exact Hi].
  exfalso.
  destruct (Hord [] older_post [] newer_post [] Hi) as [_ [_ Hv]].
  destruct (Hv Hc Hl) as [_ Ht].
  specialize (Ht eq_refl). cbn in Ht. lia.
Defined.

Lemma list_comments_newest_first_witness :
  db commented_world = Some commented_store /\
  ObjectId_of_str (Lib:=hex_lib) id_1 = Some 1%N /\
  ObjectId_of_str (Lib:=hex_lib) "0000000000000000000000ff" = Some 255%N /\
  reachable (L:=hex_lib) commented_world /\
  ~ In 255%N (post_ids commented_store) /\
  (exists items,
     list_comments (L:=hex_lib) id_1 commented_world
     = (Return (map (serialize_comment (L:=hex_lib)) items),
        commented_world) /\
     items
     = [Comment.mk 5%N 1%N None "second" None 1700000000010 1700000000011;
        Comment.mk 3%N 1%N None "first" None 1700000000004 1700000000005]) /\
  (exists items,
     list_comments (L:=hex_lib) "0000000000000000000000ff" commented_world
     = (Return (map (serialize_comment (L:=hex_lib)) items),
        commented_world) /\
     items = []).
Proof.
  assert (H1 : db commented_world = Some commented_store)
    by (vm_compute; reflexivity).
  assert (H2 : ObjectId_of_str (Lib:=hex_lib) id_1 = Some 1%N) by reflexivity.
  assert (H3 : ObjectId_of_str (Lib:=hex_lib) "0000000000000000000000ff"
               = Some 255%N) by reflexivity.
  assert (H4 : reachable (L:=hex_lib) commented_world).
  { exists (world0 (Some empty_store)),
      [CreatePost (PostCreate.mk "One" "First idea" None None);
       CreatePost (PostCreate.mk "Two" "Second idea" None None);
       AddComment id_1 (CommentCreate.mk "first" None None);
       AddComment id_2 (CommentCreate.mk "elsewhere" None None);
       AddComment id_1 (CommentCreate.mk "second" None None)].
    split; reflexivity. }
  assert (H5 : ~ In 255%N (post_ids commented_store)).
  { vm_compute. intros [H|[H|[]]]; discriminate H. }
  assert (Hf : filter (by_post 1%N) (comment commented_store)
               = [Comment.mk 3%N 1%N None "first" None
                    1700000000004 1700000000005;
                  Comment.mk 5%N 1%N None "second" None
                    1700000000010 1700000000011])
    by (vm_compute; reflexivity).
  refine (conj H1 (conj H2 (conj H3 (conj H4 (conj H5 (conj _ _)))))).
  - destruct (list_comments_newest_first (L:=hex_lib) commented_world
                commented_store id_1 1%N H1 H2)
      as [items [E [Hperm [_ [Hord _]]]]].
    exists items. split; [exact E|].
    rewrite Hf in Hperm.
    apply Permutation_sym, Permutation_length_2_inv in Hperm.
    destruct Hperm as [Hi|Hi]; [|exact Hi].
    exfalso. pose proof (Hord [] _ [] _ [] Hi) as Ht. cbn in Ht. lia.
  - destruct (list_comments_newest_first (L:=hex_lib) commented_world
                commented_store "0000000000000000000000ff" 255%N H1 H3)
      as [items [E [_ [_ [_ Hnone]]]]].
    exists items. exact (conj E (Hnone H4 H5)).
Defined.

Lemma invalid_id_rejected_witness :
  ObjectId_of_str (Lib:=hex_lib) "not-an-id" = None /\
  list_comments (L:=hex_lib) "not-an-id" (world0 None)
  = (Raise (HTTPException 400 "Invalid id"), world0 None) /\
  get_post (L:=hex_lib) "not-an-id" demo_world
  = (Raise (HTTPException 400 "Invalid id"), demo_world).
Proof.
  assert (H1 : ObjectId_of_str (Lib:=hex_lib) "not-an-id" = None)
    by reflexivity.
  assert (H2 : db demo_world <> None) by discriminate.
  split; [exact H1|]. split.
  - exact (proj1 (proj2 (invalid_id_rejected (L:=hex_lib) (world0 None)
                           "not-an-id" H1))).
  - exact (proj2 (proj1 (proj2 (proj2 (invalid_id_rejected (L:=hex_lib)
                                         demo_world "not-an-id" H1))) H2)).
Defined.

(** With no database configured, [toggle_vote] answers a malformed id with
    status 500 before it looks at the id. *)
Lemma toggle_vote_unavailable_before_invalid_id :
  ObjectId_of_str (Lib:=hex_lib) "not-an-id" = None /\
  toggle_vote (L:=hex_lib) "not-an-id" (VoteToggle.mk "phone") (world0 None)
  = (Raise (HTTPException 500 "Database not available"), world0 None) /\
  toggle_vote (L:=hex_lib) "not-an-id" (VoteToggle.mk "phone") (world0 None)
  <> (Raise (HTTPException 400 "Invalid id"), world0 None).
Proof.
  split; [reflexivity|]. split; [reflexivity|]. discriminate.
Qed.

Lemma create_post_stores_trimmed_witness :
  db demo_world = Some demo_store /\
  ~ In (objectids demo_world (issued demo_world)) (post_ids demo_store) /\
  exists p w',
    create_post (L:=hex_lib) (PostCreate.mk "  Hi " " " (Some "  ") None)
      demo_world
    = (Return (serialize_post (L:=hex_lib) p), w') /\
    Post.votes_count p = 0 /\ Post.comments_count p = 0 /\
    Post.title p = "Hi" /\ Post.tagline p = "" /\ Post.maker p = None.
Proof.
  assert (H1 : db demo_world = Some demo_store) by reflexivity.
  assert (H2 : ~ In (objectids demo_world (issued demo_world))
                    (post_ids demo_store)).
  { simpl. intros [H|[]]. discriminate H. }
  destruct (create_post_stores_trimmed (L:=hex_lib) demo_world demo_store
              (PostCreate.mk "  Hi " " " (Some "  ") None) H1 H2)
    as (p & w' & E & _ & _ & Hv & Hc & Ht & Hg & _ & _ & _ & _ & _ & _
        & Hm & _).
  refine (conj H1 (conj H2 _)). exists p, w'.
  exact (conj E (conj Hv (conj Hc (conj Ht (conj Hg (Hm "  " eq_refl)))))).
Defined.

(** * Further properties of the handlers *)

(** ** What each write computes *)

Section Runs.
Context {L : Lib}.

Lemma create_post_run data w s :
  db w = Some s ->
  create_post data w =
  let i := objectids w (issued w) in
  let p := post_of data i (clock w (ticks w)) (clock w (S (ticks w))) in
  if existsb (by_id i) (post s)
  then (Raise DuplicateKeyError, after 2 1 (Some s) w)
  else (Return (serialize_post p),
        after 2 1 (Some (mkStore (post s ++ [p]) (comment s) (vote s))) w).
Proof.
  open_world w d. intros ->. unfold create_post, after, post_of. run.
  match goal with |- context [existsb ?f (post s)] =>
    destruct (existsb f (post s)) end; reflexivity.
Qed.

Lemma add_comment_run post_id payload w s pid p :
  db w = Some s ->
  ObjectId_of_str post_id = Some pid ->
  find (by_id pid) (post s) = Some p ->
  add_comment post_id payload w =
  let i := objectids w (issued w) in
  let c := comment_of payload pid i (clock w (ticks w))
             (clock w (S (ticks w))) in
  if existsb (by_id i) (comment s)
  then (Raise DuplicateKeyError, after 2 1 (Some s) w)
  else (Return (serialize_comment c),
        after 3 1
          (Some (mkStore
                   (update_first (by_id pid)
                      (Post.inc_comments_count 1 (clock w (S (S (ticks w)))))
                      (post s))
                   (comment s ++ [c]) (vote s))) w).
Proof.
  open_world w d. intros -> Hpid Hp. unfold add_comment, after, comment_of.
  run. rewrite Hpid. run. rewrite Hp. run.
  match goal with |- context [existsb ?f (comment s)] =>
    destruct (existsb f (comment s)) end; reflexivity.
Qed.

Lemma toggle_vote_run post_id payload w s pid p :
  db w = Some s ->
  ObjectId_of_str post_id = Some pid ->
  find (by_id pid) (post s) = Some p ->
  toggle_vote post_id payload w =
  match find (by_post_device pid (VoteToggle.device_id payload)) (vote s) with
  | Some e =>
      (Return (VoteOut.mk false (Post.votes_count p - 1)),
       after 1 0
         (Some (mkStore
                  (update_first (by_id pid)
                     (Post.inc_votes_count (-1) (clock w (ticks w))) (post s))
                  (comment s)
                  (remove_first (by_id (Vote._id e)) (vote s)))) w)
  | None =>
      let i := objectids w (issued w) in
      let v := Vote.mk i pid (VoteToggle.device_id payload)
                 (clock w (ticks w)) (clock w (S (ticks w))) in
      if existsb (by_id i) (vote s)
      then (Raise DuplicateKeyError, after 2 1 (Some s) w)
      else (Return (VoteOut.mk true (Post.votes_count p + 1)),
            after 3 1
              (Some (mkStore
                       (update_first (by_id pid)
                          (Post.inc_votes_count 1 (clock w (S (S (ticks w)))))
                          (post s))
                       (comment s) (vote s ++ [v]))) w)
  end.
Proof.
  open_world w d. intros -> Hpid Hp. unfold toggle_vote, after.
  run. rewrite Hpid. run. rewrite Hp. run.
  destruct (find (by_post_device _ _) (vote s)) as [e|]; run.
  - erewrite find_update_first by (first [eassumption | intros; reflexivity]).
    reflexivity.
  - match goal with |- context [existsb ?f (vote s)] =>
      destruct (existsb f (vote s)) end; run; [reflexivity|].
    erewrite find_update_first by (first [eassumption | intros; reflexivity]).
    reflexivity.
Qed.

End Runs.

(** ** Reads, failures and the unavailable store *)

Lemma find_by_id_unique {D} `{Document D} (l : list D) d :
  unique_ids l -> In d l -> find (by_id (doc_id d)) l = Some d.
Proof.
  unfold unique_ids. induction l as [|a l IH]; simpl; [intros _ []|].
  intros Hnd Hin. inversion Hnd as [|? ? Hnotin Hnd']; subst.
  destruct (by_id (doc_id d) a) eqn:E.
  - apply by_id_true in E. destruct Hin as [->|Hin]; [reflexivity|].
    exfalso. apply Hnotin. rewrite E. apply in_map. exact Hin.
  - apply by_id_false in E. destruct Hin as [->|Hin]; [congruence|].
    apply IH; assumption.
Qed.

Section Reads.
Context {L : Lib}.

(** X1.  On an available store [get_post] answers a well-formed id with
    the serialized post that carries it ([_id] being a key, that is the one
    post with this id) and with status 404 when no post carries it; either
    way the world is left as it was. *)
Theorem get_post_finds_by_id w s post_id pid :
  db w = Some s ->
  ObjectId_of_str post_id = Some pid ->
  unique_ids (post s) ->
  (forall p, In p (post s) -> Post._id p = pid ->
             get_post post_id w = (Return (serialize_post p), w)) /\
  (~ In pid (post_ids s) ->
   get_post post_id w = (Raise (HTTPException 404 "Post not found"), w)).
Proof.
  intros Hdb Hpid Hu. split.
  - intros p Hin Hp.
    pose proof (find_by_id_unique (post s) p Hu Hin) as Hf.
    change (doc_id p) with (Post._id p) in Hf. rewrite Hp in Hf.
    open_world w d. subst d. unfold get_post. run. rewrite Hpid. run.
    rewrite Hf. reflexivity.
  - intros Hnone. apply (find_by_id_None pid (post s)) in Hnone.
    open_world w d. subst d. unfold get_post. run. rewrite Hpid. run.
    rewrite Hnone. reflexivity.
Qed.

(** X2.  With no database configured the guarded handlers answer without
    touching anything: [create_post] and [toggle_vote] (whatever the id)
    raise status 500 "Database not available", [list_posts] returns the
    empty list, and the startup hook does nothing. *)
Theorem unavailable_store_guarded w :
  db w = None ->
  (forall data,
     create_post data w
     = (Raise (HTTPException 500 "Database not available"), w)) /\
  (forall post_id payload,
     toggle_vote post_id payload w
     = (Raise (HTTPException 500 "Database not available"), w)) /\
  (forall range sort_, list_posts range sort_ w = (Return [], w)) /\
  on_start w = (Return tt, w).
Proof.
  open_world w d. intros ->. repeat split.
Qed.

(** X3.  The handlers without a guard fail on the subscript of [None]
    when no database is configured: [get_post] for every id string, even a
    malformed one, and [list_comments] and [add_comment] for every
    well-formed id.  The failure is a [TypeError], not an [HTTPException]. *)
Theorem unavailable_store_unguarded w :
  db w = None ->
  (forall post_id, get_post post_id w = (Raise TypeError, w)) /\
  (forall post_id pid,
     ObjectId_of_str post_id = Some pid ->
     list_comments post_id w = (Raise TypeError, w) /\
     forall payload, add_comment post_id payload w = (Raise TypeError, w)).
Proof.
  open_world w d. intros ->. split.
  - intros post_id. reflexivity.
  - intros post_id pid Hpid. split.
    + unfold list_comments. run. rewrite Hpid. reflexivity.
    + intros payload. unfold add_comment. run. rewrite Hpid. reflexivity.
Qed.

(** X4.  The three read handlers never write: whatever their arguments
    and whether they return or raise, [get_post] and [list_comments] leave
    the whole world as it was, and [list_posts] at most reads the clock
    once. *)
Theorem reads_never_write w :
  (forall post_id, snd (get_post post_id w) = w) /\
  (forall post_id, snd (list_comments post_id w) = w) /\
  (forall range sort_,
     snd (list_posts range sort_ w)
     = match db w with None => w | Some _ => after 1 0 (db w) w end).
Proof.
  open_world w d. split; [|split].
  - intros post_id. unfold get_post. run.
    destruct d as [s|]; [|reflexivity].
    destruct (ObjectId_of_str post_id); [|reflexivity]. run.
    destruct (find _ (post s)); reflexivity.
  - intros post_id. unfold list_comments. run.
    destruct (ObjectId_of_str post_id); [|reflexivity]. run.
    destruct d; reflexivity.
  - intros range sort_. unfold list_posts. run.
    destruct d; reflexivity.
Qed.

(** X5.  A write handler that answers with an HTTP error has done
    nothing before: whenever [create_post], [toggle_vote] or [add_comment]
    raises an [HTTPException] (status 400, 404 or 500), with or without a
    database, the world is exactly the one the call started in: no record
    written, no counter moved, no clock read, no id drawn. *)
Theorem http_errors_change_nothing w :
  (forall data code msg w',
     create_post data w = (Raise (HTTPException code msg), w') -> w' = w) /\
  (forall post_id payload code msg w',
     toggle_vote post_id payload w = (Raise (HTTPException code msg), w') ->
     w' = w) /\
  (forall post_id payload code msg w',
     add_comment post_id payload w = (Raise (HTTPException code msg), w') ->
     w' = w).
Proof.
  destruct (db w) as [s|] eqn:Hdb.
  - split; [|split].
    + intros data code msg w'. rewrite (create_post_run data w s Hdb).
      cbv zeta. destruct (existsb _ (post s)); discriminate.
    + intros post_id payload code msg w'.
      destruct (ObjectId_of_str post_id) as [pid|] eqn:Hpid.
      * destruct (find (by_id pid) (post s)) as [p|] eqn:Hp.
        -- rewrite (toggle_vote_run post_id payload w s pid p Hdb Hpid Hp).
           destruct (find _ (vote s)); [discriminate|]. cbv zeta.
           destruct (existsb _ (vote s)); discriminate.
        -- open_world w d. subst d. unfold toggle_vote. run. rewrite Hpid.
           run. rewrite Hp. intros [= _ _ <-]. reflexivity.
      * open_world w d. subst d. unfold toggle_vote. run. rewrite Hpid.
        intros [= _ _ <-]. reflexivity.
    + intros post_id payload code msg w'.
      destruct (ObjectId_of_str post_id) as [pid|] eqn:Hpid.
      * destruct (find (by_id pid) (post s)) as [p|] eqn:Hp.
        -- rewrite (add_comment_run post_id payload w s pid p Hdb Hpid Hp).
           cbv zeta. destruct (existsb _ (comment s)); discriminate.
        -- open_world w d. subst d. unfold add_comment. run. rewrite Hpid.
           run. rewrite Hp. intros [= _ _ <-]. reflexivity.
      * open_world w d. subst d. unfold add_comment. run. rewrite Hpid.
        intros [= _ _ <-]. reflexivity.
  - open_world w d. subst d. split; [|split].
    + intros data code msg w'. intros [= _ _ <-]. reflexivity.
    + intros post_id payload code msg w'. intros [= _ _ <-]. reflexivity.
    + intros post_id payload code msg w'. unfold add_comment. run.
      destruct (ObjectId_of_str post_id); run; [discriminate|].
      intros [= _ _ <-]. reflexivity.
Qed.

(** X6.  The startup hook never raises, whatever happens while seeding;
    it leaves a store that holds a post as it is; and on a well-formed store
    a second startup changes nothing the first one left. *)
Theorem startup_is_safe_and_seeds_once w :
  fst (on_start w) = Return tt /\
  (forall s, db w = Some s -> post s <> [] ->
             db (snd (on_start w)) = Some s) /\
  (forall s, db w = Some s -> store_ok s ->
             db (snd (on_start (snd (on_start w)))) = db (snd (on_start w))).
Proof.
  split; [|split].
  - unfold on_start, try_except, ret.
    destruct (seed_posts w) as [[[]|e] w']; reflexivity.
  - intros s Hdb Hne. apply (on_start_nonempty w s Hdb Hne).
  - intros s Hdb Hok. destruct (post s) as [|p l] eqn:Hp.
    + pose proof (store_ok_no_posts _ Hok Hp) as ->.
      open_world w d. subst d.
      destruct (on_start_empty clock0 ticks0 objectids0 issued0)
        as [s' [E [_ Hne]]].
      rewrite E. apply (on_start_nonempty _ s' E Hne).
    + assert (Hne : post s <> []) by (rewrite Hp; discriminate).
      pose proof (on_start_nonempty w s Hdb Hne) as E.
      rewrite E. apply (on_start_nonempty _ s E Hne).
Qed.

End Reads.

(** ** More invariants of the reachable stores *)

Lemma count_if_le_length {D} (f : D -> bool) (l : list D) :
  count_if f l <= Z.of_nat (List.length l).
Proof.
  unfold count_if. pose proof (filter_length_le f l). lia.
Qed.

Lemma In_update_first_image {D} (f : D -> bool) (u : D -> D) (l : list D) d :
  In d l -> exists d', In d' (update_first f u l) /\ (d' = d \/ d' = u d).
Proof.
  induction l as [|a l IH]; simpl; [intros []|].
  intros [->|Hin].
  - destruct (f d); eexists; (split; [left; reflexivity|]); auto.
  - destruct (f a).
    + exists d. split; [right; exact Hin|auto].
    + destruct (IH Hin) as [d' [Hd' Hcase]].
      exists d'. split; [right; exact Hd'|exact Hcase].
Qed.

Lemma same_content_refl p : same_content p p.
Proof. repeat split. Qed.

Lemma same_content_trans p q r :
  same_content p q -> same_content q r -> same_content p r.
Proof.
  unfold same_content. intros (A1 & A2 & A3 & A4 & A5 & A6)
    (B1 & B2 & B3 & B4 & B5 & B6).
  repeat split; congruence.
Qed.

(** A write keeps every post, up to its counters and [updated_at]. *)
Lemma store_step_keeps_posts s s' :
  store_step s s' ->
  forall p, In p (post s) -> exists p', In p' (post s') /\ same_content p p'.
Proof.
  intros Hstep p Hin.
  destruct Hstep as [q _ _ _ | v now _ _ _ | e now _ | c now _]; simpl.
  - exists p. split; [apply in_app_iff; left; exact Hin|].
    apply same_content_refl.
  - destruct (In_update_first_image (by_id (Vote.post_id v))
                (Post.inc_votes_count 1 now) _ _ Hin) as [p' [Hp' [->| ->]]];
      eexists; (split; [exact Hp'|]); repeat split.
  - destruct (In_update_first_image (by_id (Vote.post_id e))
                (Post.inc_votes_count (-1) now) _ _ Hin)
      as [p' [Hp' [->| ->]]];
      eexists; (split; [exact Hp'|]); repeat split.
  - destruct (In_update_first_image (by_id (Comment.post_id c))
                (Post.inc_comments_count 1 now) _ _ Hin)
      as [p' [Hp' [->| ->]]];
      eexists; (split; [exact Hp'|]); repeat split.
Qed.

(** A write keeps every counter at or above the number of its records. *)
Lemma store_step_cover s s' :
  store_ok s -> counters_cover s -> store_step s s' -> counters_cover s'.
Proof.
  intros [Hp Hv Hc Hvr Hcr H1] Hcov Hstep.
  destruct Hstep as [p Hfresh Hv0 Hc0 | v now Hpid Hnone Hfresh
                    | e now Hin | c now Hpid Hfresh];
    intros q Hq; simpl in Hq.
  - apply in_app_iff in Hq as [Hq|[<-|[]]].
    + apply (Hcov q Hq).
    + split; unfold votes_for, comments_for; simpl.
      * rewrite Hv0, count_if_zero; [lia|]. intros v Hv'.
        unfold vote_of_post. apply N.eqb_neq. intros E. apply Hfresh.
        rewrite <- E. apply Hvr, Hv'.
      * rewrite Hc0, count_if_zero; [lia|]. intros c Hc'.
        unfold by_post. apply N.eqb_neq. intros E. apply Hfresh.
        rewrite <- E. apply Hcr, Hc'.
  - apply In_update_first in Hq; [|exact Hp].
    unfold doc_id, Post_Document in Hq.
    unfold votes_for, comments_for. simpl.
    rewrite count_if_app, count_if_cons. unfold count_if at 2. simpl.
    destruct Hq as [[Hq Hne]|[q0 [Hq0 [Hid ->]]]].
    + destruct (Hcov q Hq) as [A B].
      unfold vote_of_post at 2.
      destruct (N.eqb_spec (Vote.post_id v) (Post._id q)) as [E|_];
        [congruence|].
      unfold votes_for in A. unfold comments_for in B. split; [lia|exact B].
    + destruct (Hcov q0 Hq0) as [A B].
      unfold vote_of_post at 2. simpl. rewrite Hid, N.eqb_refl.
      unfold votes_for in A. unfold comments_for in B. rewrite Hid in *.
      split; [lia|exact B].
  - destruct (remove_first_by_id _ _ Hv Hin) as [l1 [l2 [E1 E2]]].
    change (doc_id e) with (Vote._id e) in E2.
    apply In_update_first in Hq; [|exact Hp].
    unfold doc_id, Post_Document in Hq.
    unfold votes_for, comments_for. simpl.
    rewrite E2, count_if_app.
    assert (Hall : forall pid, votes_for s pid =
              count_if (vote_of_post pid) l1
              + (if vote_of_post pid e then 1 else 0)
              + count_if (vote_of_post pid) l2).
    { intros pid. unfold votes_for. rewrite E1, count_if_app, count_if_cons.
      lia. }
    destruct Hq as [[Hq Hne]|[q0 [Hq0 [Hid ->]]]].
    + destruct (Hcov q Hq) as [A B]. rewrite Hall in A.
      unfold vote_of_post at 2 in A.
      destruct (N.eqb_spec (Vote.post_id e) (Post._id q)) as [E|_];
        [congruence|].
      split; [lia|exact B].
    + destruct (Hcov q0 Hq0) as [A B]. rewrite Hall in A.
      unfold vote_of_post at 2 in A. simpl. rewrite Hid in *.
      rewrite N.eqb_refl in A. split; [lia|exact B].
  - apply In_update_first in Hq; [|exact Hp].
    unfold doc_id, Post_Document in Hq.
    unfold votes_for, comments_for. simpl.
    rewrite count_if_app, count_if_cons. unfold count_if at 3. simpl.
    destruct Hq as [[Hq Hne]|[q0 [Hq0 [Hid ->]]]].
    + destruct (Hcov q Hq) as [A B].
      unfold by_post at 2.
      destruct (N.eqb_spec (Comment.post_id c) (Post._id q)) as [E|_];
        [congruence|].
      unfold votes_for in A. unfold comments_for in B. split; [exact A|lia].
    + destruct (Hcov q0 Hq0) as [A B].
      unfold by_post at 2. simpl. rewrite Hid, N.eqb_refl.
      unfold votes_for in A. unfold comments_for in B. rewrite Hid in *.
      split; [exact A|lia].
Qed.

Section MoreInvariants.
Context {L : Lib}.

(** The seeded counters cover the seeded records, whatever the ids. *)
Lemma on_start_empty_cover clk t ids n :
  exists s',
    db (snd (on_start (mkWorld (Some empty_store) clk t ids n))) = Some s' /\
    counters_cover s'.
Proof.
  repeat (cbv -[N.eqb Z.sub timedelta_days timedelta_hours counters_cover];
          match goal with
          | |- context [(?a =? ?b)%N] => destruct (N.eqb_spec a b)
          end).
  all: cbv -[N.eqb Z.sub timedelta_days timedelta_hours counters_cover].
  all: eexists; split; [reflexivity|].
  all: intros p Hp; unfold votes_for, comments_for; cbn [post vote comment];
    match goal with
    | |- count_if ?f ?l <= _ /\ _ =>
        pose proof (count_if_le_length f l) as Hlen
    end;
    cbn [List.length Z.of_nat Pos.of_succ_nat Pos.succ] in Hlen;
    cbn [post] in Hp;
    repeat (destruct Hp as [<-|Hp];
            [split; [cbn [Post.votes_count]; lia|cbv; discriminate]|]);
    destruct Hp.
Qed.

Lemma serve_cover r w s :
  db w = Some s -> store_ok s -> counters_cover s ->
  exists s', db (serve r w) = Some s' /\ store_ok s' /\ counters_cover s'.
Proof.
  intros Hdb Hok Hcov.
  assert (Hstep : forall s', s' = s \/ store_step s s' ->
            store_ok s' /\ counters_cover s').
  { intros s' [->|Hstep]; [auto|].
    split; [apply (store_step_ok _ _ Hok Hstep)|].
    apply (store_step_cover _ _ Hok Hcov Hstep). }
  destruct r; simpl.
  - destruct (post s) as [|p l] eqn:Hp.
    + pose proof (store_ok_no_posts _ Hok Hp) as ->.
      open_world w d. subst d.
      destruct (on_start_empty clock0 ticks0 objectids0 issued0)
        as [s1 [E1 [Hok1 _]]].
      destruct (on_start_empty_cover clock0 ticks0 objectids0 issued0)
        as [s2 [E2 Hcov2]].
      assert (s2 = s1) as -> by congruence. eauto.
    + exists s. rewrite (on_start_nonempty w s Hdb); [auto|].
      rewrite Hp. discriminate.
  - rewrite list_posts_db. eauto.
  - rewrite get_post_db. eauto.
  - destruct (create_post_db data _ _ Hdb) as [s' [E Hcase]].
    exists s'. split; [exact E|]. apply Hstep, Hcase.
  - destruct (toggle_vote_db post_id payload _ _ Hdb) as [s' [E Hcase]].
    exists s'. split; [exact E|]. apply Hstep, Hcase.
  - rewrite list_comments_db. eauto.
  - destruct (add_comment_db post_id payload _ _ Hdb) as [s' [E Hcase]].
    exists s'. split; [exact E|]. apply Hstep, Hcase.
Qed.

Lemma serve_all_cover rs : forall w s,
  db w = Some s -> store_ok s -> counters_cover s ->
  exists s', db (serve_all rs w) = Some s' /\ counters_cover s'.
Proof.
  induction rs as [|r rs IH]; intros w s Hdb Hok Hcov; simpl.
  - eauto.
  - destruct (serve_cover r _ _ Hdb Hok Hcov) as [s1 [E1 [Hok1 Hcov1]]].
    apply (IH _ _ E1 Hok1 Hcov1).
Qed.

(** X7.  In every reachable state each counter is at least the number of
    records it stands for, so neither [votes_count] nor [comments_count] is
    ever negative, seeded samples included. *)
Theorem counters_never_negative w s :
  reachable w -> db w = Some s ->
  forall p, In p (post s) ->
    0 <= votes_for s (Post._id p) <= Post.votes_count p /\
    0 <= comments_for s (Post._id p) <= Post.comments_count p.
Proof.
  intros [w0 [rs [H0 ->]]] Hdb p Hp.
  assert (Hc0 : counters_cover empty_store) by (intros q []).
  destruct (serve_all_cover rs _ _ H0 store_ok_empty Hc0) as [s' [E Hcov]].
  assert (s' = s) as -> by congruence.
  destruct (Hcov p Hp) as [A B].
  pose proof (count_if_nonneg (vote_of_post (Post._id p)) (vote s)).
  pose proof (count_if_nonneg (by_post (Post._id p)) (comment s)).
  unfold votes_for, comments_for in *. lia.
Qed.

(** X8.  In every reachable state [_id] is a key of each collection and
    every Vote and every Comment references a Post that exists: the store
    has no orphans, although it enforces no foreign key. *)
Theorem reachable_store_has_no_orphans w s :
  reachable w -> db w = Some s ->
  NoDup (map Post._id (post s)) /\
  NoDup (map Vote._id (vote s)) /\
  NoDup (map Comment._id (comment s)) /\
  (forall v, In v (vote s) ->
     exists p, In p (post s) /\ Post._id p = Vote.post_id v) /\
  (forall c, In c (comment s) ->
     exists p, In p (post s) /\ Post._id p = Comment.post_id c).
Proof.
  intros Hr Hdb.
  destruct (reachable_ok _ _ Hr Hdb) as [Hp Hv Hc Hvr Hcr _].
  split; [exact Hp|]. split; [exact Hv|]. split; [exact Hc|]. split.
  - intros v Hin. apply Hvr in Hin. unfold post_ids in Hin.
    apply in_map_iff in Hin as [p [E Hin]]. exists p. auto.
  - intros c Hin. apply Hcr in Hin. unfold post_ids in Hin.
    apply in_map_iff in Hin as [p [E Hin]]. exists p. auto.
Qed.

Lemma serve_keeps_posts r w s s' :
  db w = Some s -> store_ok s -> db (serve r w) = Some s' ->
  forall p, In p (post s) -> exists p', In p' (post s') /\ same_content p p'.
Proof.
  intros Hdb Hok Hs' p Hin.
  assert (Hstep : forall s1, db (serve r w) = Some s1 ->
            s1 = s \/ store_step s s1 ->
            exists p', In p' (post s') /\ same_content p p').
  { intros s1 E1 Hcase. assert (s1 = s') as -> by congruence.
    destruct Hcase as [->|Hstep].
    - exists p. split; [exact Hin|apply same_content_refl].
    - apply (store_step_keeps_posts _ _ Hstep p Hin). }
  destruct r; simpl in *.
  - rewrite (on_start_nonempty w s Hdb) in Hs'.
    + injection Hs' as <-. exists p. split; [exact Hin|].
      apply same_content_refl.
    + intros E. rewrite E in Hin. destruct Hin.
  - rewrite list_posts_db in Hs'. apply (Hstep s); [|auto].
    rewrite list_posts_db. exact Hdb.
  - rewrite get_post_db in Hs'. apply (Hstep s); [|auto].
    rewrite get_post_db. exact Hdb.
  - destruct (create_post_db data _ _ Hdb) as [s1 [E Hcase]].
    apply (Hstep s1 E Hcase).
  - destruct (toggle_vote_db post_id payload _ _ Hdb) as [s1 [E Hcase]].
    apply (Hstep s1 E Hcase).
  - rewrite list_comments_db in Hs'. apply (Hstep s); [|auto].
    rewrite list_comments_db. exact Hdb.
  - destruct (add_comment_db post_id payload _ _ Hdb) as [s1 [E Hcase]].
    apply (Hstep s1 E Hcase).
Qed.

(** X9.  No request deletes a post or rewrites it: after any run of
    requests from a well-formed store, every post of the store is still
    there with its [_id], title, tagline, maker, url and [created_at]; only
    the counters and [updated_at] may differ. *)
Theorem posts_are_never_deleted_or_rewritten rs : forall w s s',
  db w = Some s -> store_ok s -> db (serve_all rs w) = Some s' ->
  forall p, In p (post s) -> exists p', In p' (post s') /\ same_content p p'.
Proof.
  induction rs as [|r rs IH]; intros w s s' Hdb Hok Hs' p Hin; simpl in Hs'.
  - assert (s' = s) as -> by congruence.
    exists p. split; [exact Hin|apply same_content_refl].
  - destruct (serve_ok r _ _ Hdb Hok) as [s1 [E1 Hok1]].
    destruct (serve_keeps_posts r w s s1 Hdb Hok E1 p Hin) as [p1 [Hin1 Hc1]].
    destruct (IH _ _ _ E1 Hok1 Hs' p1 Hin1) as [p' [Hin' Hc']].
    exists p'. split; [exact Hin'|].
    apply (same_content_trans _ _ _ Hc1 Hc').
Qed.

End MoreInvariants.

(** ** What a toggle touches *)

Lemma filter_at_most_one {D} (f : D -> bool) (l : list D) a b :
  (List.length (filter f l) <= 1)%nat ->
  In a l -> f a = true -> In b l -> f b = true -> a = b.
Proof.
  intros Hlen Ha Hfa Hb Hfb.
  assert (Ia : In a (filter f l)) by (apply filter_In; auto).
  assert (Ib : In b (filter f l)) by (apply filter_In; auto).
  destruct (filter f l) as [|x [|y r]]; simpl in *.
  - destruct Ia.
  - destruct Ia as [<-|[]], Ib as [<-|[]]. reflexivity.
  - lia.
Qed.

Lemma In_update_first_other {D} `{Document D} (u : D -> D) i (l : list D) d :
  (forall x, doc_id (u x) = doc_id x) ->
  doc_id d <> i ->
  (In d (update_first (by_id i) u l) <-> In d l).
Proof.
  intros Hu Hd. induction l as [|a l IH]; simpl; [tauto|].
  destruct (by_id i a) eqn:E.
  - apply by_id_true in E. simpl. split.
    + intros [Ha|Hin]; [|auto]. exfalso. apply Hd. rewrite <- Ha, Hu. exact E.
    + intros [Ha|Hin]; [|auto]. exfalso. apply Hd. rewrite <- Ha. exact E.
  - simpl. rewrite IH. tauto.
Qed.

Lemma In_remove_first_other {D} `{Document D} i (l : list D) d :
  doc_id d <> i -> (In d (remove_first (by_id i) l) <-> In d l).
Proof.
  intros Hd. induction l as [|a l IH]; simpl; [tauto|].
  destruct (by_id i a) eqn:E.
  - apply by_id_true in E. split; [auto|].
    intros [Ha|Hin]; [|exact Hin]. exfalso. apply Hd. rewrite <- Ha. exact E.
  - simpl. rewrite IH. tauto.
Qed.

Lemma unique_ids_same_id {D} `{Document D} (l : list D) a b :
  unique_ids l -> In a l -> In b l -> doc_id a = doc_id b -> a = b.
Proof.
  unfold unique_ids. induction l as [|x l IH]; simpl; [intros _ []|].
  intros Hnd Ha Hb E. inversion Hnd as [|? ? Hnotin Hnd']; subst.
  destruct Ha as [->|Ha], Hb as [->|Hb].
  - reflexivity.
  - exfalso. apply Hnotin. rewrite E. apply in_map. exact Hb.
  - exfalso. apply Hnotin. rewrite <- E. apply in_map. exact Ha.
  - apply IH; assumption.
Qed.

Section ToggleFrame.
Context {L : Lib}.

(** X10.  A toggle touches nothing but the caller's own vote and the
    target post: on a store where [_id] is a key of the votes, whenever
    [toggle_vote] returns, every vote of another device or on another post
    is in the store after the call exactly if it was before, the comments
    are untouched, and so is every post other than the target. *)
Theorem toggle_vote_touches_only_its_own w s post_id payload r w' s' pid :
  db w = Some s ->
  unique_ids (vote s) ->
  ObjectId_of_str post_id = Some pid ->
  toggle_vote post_id payload w = (Return r, w') ->
  db w' = Some s' ->
  (forall v,
     Vote.post_id v <> pid \/
     Vote.device_id v <> VoteToggle.device_id payload ->
     (In v (vote s') <-> In v (vote s))) /\
  comment s' = comment s /\
  (forall q, Post._id q <> pid -> (In q (post s') <-> In q (post s))).
Proof.
  intros Hdb Hu Hpid Hrun Hs'.
  destruct (find (by_id pid) (post s)) as [p|] eqn:Hp.
  2:{ exfalso. revert Hrun. open_world w d. subst d. unfold toggle_vote.
      run. rewrite Hpid. run. rewrite Hp. discriminate. }
  rewrite (toggle_vote_run post_id payload w s pid p Hdb Hpid Hp) in Hrun.
  destruct (find _ (vote s)) as [e|] eqn:He.
  - injection Hrun as _ <-. cbn in Hs'. injection Hs' as <-. cbn.
    apply find_some in He as [Hin Hb].
    apply by_post_device_true in Hb as [Hep He_d].
    split; [|split; [reflexivity|]].
    + intros v Hv.
      destruct (N.eq_dec (Vote._id v) (Vote._id e)) as [E|E].
      * split; intros Hvin.
        -- exfalso.
           destruct (remove_first_by_id _ _ Hu Hin) as [l1 [l2 [E1 E2]]].
           change (doc_id e) with (Vote._id e) in E2.
           rewrite E2 in Hvin.
           assert (Hv_in : In v (vote s)).
           { rewrite E1. apply in_app_iff in Hvin. apply in_app_iff.
             simpl. tauto. }
           pose proof (unique_ids_same_id _ v e Hu Hv_in Hin E) as ->.
           unfold unique_ids in Hu. rewrite E1, map_app in Hu. simpl in Hu.
           apply NoDup_remove_2 in Hu. apply Hu. rewrite <- map_app.
           apply in_map. exact Hvin.
        -- exfalso.
           pose proof (unique_ids_same_id _ v e Hu Hvin Hin E) as ->.
           destruct Hv as [Hv|Hv]; congruence.
      * apply (In_remove_first_other (Vote._id e) (vote s) v E).
    + intros q Hq.
      apply (In_update_first_other _ pid (post s) q); [reflexivity|exact Hq].
  - cbv zeta in Hrun. destruct (existsb _ (vote s)); [discriminate|].
    injection Hrun as _ <-. cbn in Hs'. injection Hs' as <-. cbn.
    split; [|split; [reflexivity|]].
    + intros v Hv. rewrite in_app_iff. simpl. split; [|auto].
      intros [Hin|[<-|[]]]; [exact Hin|]. cbn in Hv. destruct Hv; congruence.
    + intros q Hq.
      apply (In_update_first_other _ pid (post s) q); [reflexivity|exact Hq].
Qed.

(** X11.  A device that holds a vote on the post takes it back: on a
    well-formed store [toggle_vote] answers [voted = false] with the count
    one lower, the device's vote is gone from the store, and no other vote
    is. *)
Theorem toggle_vote_takes_vote_back w s post_id payload pid p e :
  db w = Some s ->
  store_ok s ->
  ObjectId_of_str post_id = Some pid ->
  find (by_id pid) (post s) = Some p ->
  In e (vote s) ->
  Vote.post_id e = pid ->
  Vote.device_id e = VoteToggle.device_id payload ->
  exists w' s',
    toggle_vote post_id payload w
    = (Return (VoteOut.mk false (Post.votes_count p - 1)), w') /\
    db w' = Some s' /\
    (forall v, In v (vote s') <-> In v (vote s) /\ v <> e) /\
    find (by_id pid) (post s')
    = Some (Post.inc_votes_count (-1) (clock w (ticks w)) p).
Proof.
  intros Hdb Hok Hpid Hp Hin Hep Hed.
  destruct Hok as [_ Hu _ _ _ H1].
  rewrite (toggle_vote_run post_id payload w s pid p Hdb Hpid Hp).
  assert (Hbe : by_post_device pid (VoteToggle.device_id payload) e = true)
    by (apply by_post_device_true; auto).
  destruct (find _ (vote s)) as [e'|] eqn:He.
  2:{ pose proof (find_none _ _ He e Hin) as Hf. cbv beta in Hf.
      rewrite Hbe in Hf. discriminate. }
  apply find_some in He as [Hin' Hb'].
  pose proof (filter_at_most_one _ _ e' e (H1 pid _) Hin' Hb' Hin Hbe) as ->.
  eexists. eexists. split; [reflexivity|]. split; [reflexivity|]. cbn.
  split.
  - destruct (remove_first_by_id _ _ Hu Hin) as [l1 [l2 [E1 E2]]].
    change (doc_id e) with (Vote._id e) in E2. rewrite E2.
    assert (Hnot : ~ In e (l1 ++ l2)).
    { unfold unique_ids in Hu. rewrite E1, map_app in Hu. simpl in Hu.
      apply NoDup_remove_2 in Hu. intros Hc. apply Hu.
      rewrite <- map_app. apply (in_map Vote._id _ _ Hc). }
    intros v. rewrite E1, !in_app_iff. simpl. rewrite in_app_iff in Hnot.
    split.
    + intros Hv. split; [tauto|]. intros ->. tauto.
    + intros [[Hv|[Hv|Hv]] Hne]; auto. congruence.
  - apply find_update_first; [intros; reflexivity|exact Hp].
Qed.

End ToggleFrame.

(** ** Write, then read *)

Section RoundTrips.
Context {L : Lib}.

(** X12.  What [create_post] returns can be fetched again: provided the
    id constructor reads back the string [str] gives for the new id,
    [get_post] on the returned [id] answers with a record that has the same
    id, title, tagline, maker, url and counters as the one [create_post]
    returned. *)
Theorem create_post_then_get_post w s data :
  db w = Some s ->
  ~ In (objectids w (issued w)) (post_ids s) ->
  ObjectId_of_str (str_of_ObjectId (objectids w (issued w)))
  = Some (objectids w (issued w)) ->
  exists r w' r',
    create_post data w = (Return r, w') /\
    get_post (PostOut.id r) w' = (Return r', w') /\
    same_post_fields r r'.
Proof.
  intros Hdb Hfresh Hparse.
  rewrite (create_post_run data w s Hdb). cbv zeta.
  unfold Post_Document, Comment_Document, Vote_Document in *.
  pose proof Hfresh as Hnone.
  apply (existsb_by_id_false _ (post s)) in Hfresh.
  apply (find_by_id_None _ (post s)) in Hnone.
  rewrite Hfresh. eexists. eexists. eexists. split; [reflexivity|].
  split; [|repeat split].
  unfold get_post, after. run. cbn [PostOut.id serialize_post post_of Post._id].
  rewrite Hparse. run.
  unfold Post_Document in Hnone.
  rewrite (find_app_one _ _ _ Hnone).
  unfold by_id at 1. cbn [doc_id Post._id post_of]. rewrite N.eqb_refl.
  reflexivity.
Qed.

(** X13.  A comment just added is listed: after [add_comment] returns
    [r], [list_comments] on the same post returns a list that is one longer
    than the number of comments the post had and holds a record with the
    id, post_id, author, content and device_id of [r]. *)
Theorem add_comment_then_list_comments w s post_id payload pid p :
  db w = Some s ->
  ObjectId_of_str post_id = Some pid ->
  find (by_id pid) (post s) = Some p ->
  ~ In (objectids w (issued w)) (map Comment._id (comment s)) ->
  exists r w' rs,
    add_comment post_id payload w = (Return r, w') /\
    list_comments post_id w' = (Return rs, w') /\
    (exists r', In r' rs /\ same_comment_fields r r') /\
    Z.of_nat (List.length rs) = comments_for s pid + 1.
Proof.
  intros Hdb Hpid Hp Hfresh.
  rewrite (add_comment_run post_id payload w s pid p Hdb Hpid Hp). cbv zeta.
  unfold Post_Document, Comment_Document, Vote_Document in *.
  apply (existsb_by_id_false _ (comment s)) in Hfresh.
  rewrite Hfresh. eexists. eexists. eexists. split; [reflexivity|].
  split; [|split].
  - unfold list_comments, after. run. rewrite Hpid. reflexivity.
  - eexists. split; [|repeat split].
    apply in_map. apply in_sorted_filter. split.
    + apply in_app_iff. right. left. reflexivity.
    + unfold by_post, comment_of. cbn. apply N.eqb_refl.
  - rewrite length_map, (Permutation_length (sort_perm _ _)).
    cbn [comment]. rewrite filter_app, length_app.
    unfold comments_for, count_if. cbn.
    unfold by_post at 2. cbn. rewrite N.eqb_refl. cbn. lia.
Qed.

(** X14.  A post just created is listed: [list_posts] called next
    returns, for every [range] and [sort], a record with the id, title,
    tagline, maker, url and counters of the one [create_post] returned,
    provided the clock has moved on by no more than seven days since the
    post was stamped. *)
Theorem create_post_then_list_posts w s data range sort_ :
  db w = Some s ->
  ~ In (objectids w (issued w)) (post_ids s) ->
  clock w (S (S (ticks w))) - timedelta_days 7 <= clock w (ticks w) ->
  exists r w' rs,
    create_post data w = (Return r, w') /\
    fst (list_posts range sort_ w') = Return rs /\
    exists r', In r' rs /\ same_post_fields r r'.
Proof.
  intros Hdb Hfresh Hclock.
  rewrite (create_post_run data w s Hdb). cbv zeta.
  unfold Post_Document, Comment_Document, Vote_Document in *.
  apply (existsb_by_id_false _ (post s)) in Hfresh.
  rewrite Hfresh. eexists. eexists. eexists. split; [reflexivity|].
  split; [apply list_posts_run; reflexivity|].
  eexists. split; [|repeat split].
  apply in_map. apply in_sorted_filter. cbn [post]. split.
  - apply in_app_iff. right. left. reflexivity.
  - unfold next_now, after. cbn [clock ticks Nat.add].
    unfold timedelta_days in *.
    destruct (String.eqb range "week"); [|destruct (String.eqb range "month")];
      cbn; try reflexivity; apply Z.leb_le; lia.
Qed.

(** X15.  [list_posts] returns every post that passes the range filter
    exactly once, in one piece: the result is a rearrangement of the stored
    posts at or after the bound, and of all stored posts when [range] is
    neither ["week"] nor ["month"]. *)
Theorem list_posts_lists_each_post_once w s range sort_ :
  db w = Some s ->
  exists items,
    fst (list_posts range sort_ w) = Return (map serialize_post items) /\
    (range = "week" ->
       Permutation items
         (filter (fun p => next_now w - timedelta_days 7 <=? Post.created_at p)
            (post s))) /\
    (range = "month" ->
       Permutation items
         (filter (fun p => next_now w - timedelta_days 30 <=? Post.created_at p)
            (post s))) /\
    (range <> "week" -> range <> "month" -> Permutation items (post s)).
Proof.
  intros Hdb. eexists. split; [apply (list_posts_run _ _ _ _ Hdb)|].
  split; [|split].
  - intros ->. cbn [String.eqb Ascii.eqb Bool.eqb]. apply sort_perm.
  - intros ->. cbn [String.eqb Ascii.eqb Bool.eqb]. apply sort_perm.
  - intros Hw Hm. apply String.eqb_neq in Hw, Hm. rewrite Hw, Hm.
    rewrite sort_perm. cbn [created_at_gte].
    assert (E : forall l : list Post.t, filter (fun _ => true) l = l).
    { induction l as [|a l IH]; simpl; congruence. }
    change (created_at_gte None) with (fun _ : Post.t => true).
    rewrite E. reflexivity.
Qed.

End RoundTrips.

(** ** What is stored of a text *)

Lemma lstrip_fixed s :
  (forall c, first_char s = Some c -> isspace c = false) -> lstrip s = s.
Proof.
  destruct s as [|a s]; simpl; [reflexivity|].
  intros H. rewrite (H a eq_refl). reflexivity.
Qed.

Lemma rstrip_idempotent s : rstrip (rstrip s) = rstrip s.
Proof.
  induction s as [|a s IH]; simpl; [reflexivity|].
  destruct (rstrip s) as [|b r] eqn:E.
  - destruct (isspace a) eqn:Ea; simpl; [reflexivity|]. rewrite Ea.
    reflexivity.
  - simpl in *. rewrite IH. reflexivity.
Qed.

Lemma strip_idempotent s : strip (strip s) = strip s.
Proof.
  unfold strip at 1. rewrite lstrip_fixed.
  - apply rstrip_idempotent.
  - apply strip_trimmed.
Qed.

Lemma or_None_strip_clean x m :
  or_None (strip x) = Some m -> m <> "" /\ trimmed m.
Proof.
  unfold or_None. destruct (strip x) eqn:E; simpl; [discriminate|].
  intros [= <-]. split; [discriminate|]. rewrite <- E. apply strip_trimmed.
Qed.

Section StoredText.
Context {L : Lib}.

(** X16.  What [create_post] stores is clean text: title and tagline
    neither start nor end with whitespace (and stripping them again changes
    nothing), and maker and url, when stored at all, are non-empty and
    trimmed: they are never stored as the empty string. *)
Theorem create_post_stores_clean_text w s data r w' :
  db w = Some s ->
  create_post data w = (Return r, w') ->
  exists p,
    db w' = Some (mkStore (post s ++ [p]) (comment s) (vote s)) /\
    r = serialize_post p /\
    trimmed (Post.title p) /\ trimmed (Post.tagline p) /\
    strip (Post.title p) = Post.title p /\
    strip (Post.tagline p) = Post.tagline p /\
    (forall m, Post.maker p = Some m -> m <> "" /\ trimmed m) /\
    (forall u, Post.url p = Some u -> u <> "" /\ trimmed u).
Proof.
  intros Hdb. rewrite (create_post_run data w s Hdb). cbv zeta.
  destruct (existsb _ (post s)); [discriminate|].
  intros [= <- <-]. eexists. split; [reflexivity|]. split; [reflexivity|].
  cbn [post_of Post.title Post.tagline Post.maker Post.url].
  split; [apply strip_trimmed|]. split; [apply strip_trimmed|].
  split; [apply strip_idempotent|]. split; [apply strip_idempotent|].
  split; intros x Hx; apply (or_None_strip_clean _ _ Hx).
Qed.

(** X17.  What [add_comment] returns: the content is trimmed; the author
    is [None] or a non-empty trimmed string; the device id is [None] when
    absent or empty and otherwise kept exactly as sent, whitespace
    included; and [post_id] is the parsed id itself, which [serialize] does
    not turn into a string. *)
Theorem add_comment_normalises_fields w s post_id payload r w' :
  db w = Some s ->
  add_comment post_id payload w = (Return r, w') ->
  ObjectId_of_str post_id = Some (CommentOut.post_id r) /\
  CommentOut.content r = strip (CommentCreate.content payload) /\
  trimmed (CommentOut.content r) /\
  (forall a, CommentOut.author r = Some a -> a <> "" /\ trimmed a) /\
  (CommentCreate.author payload = None -> CommentOut.author r = None) /\
  (CommentCreate.device_id payload = None -> CommentOut.device_id r = None) /\
  (CommentCreate.device_id payload = Some "" ->
     CommentOut.device_id r = None) /\
  (forall d, d <> "" -> CommentCreate.device_id payload = Some d ->
     CommentOut.device_id r = Some d).
Proof.
  intros Hdb Hrun.
  destruct (ObjectId_of_str post_id) as [pid|] eqn:Hpid.
  2:{ exfalso. revert Hrun. open_world w d. subst d. unfold add_comment.
      run. rewrite Hpid. discriminate. }
  destruct (find (by_id pid) (post s)) as [p|] eqn:Hp.
  2:{ exfalso. revert Hrun. open_world w d. subst d. unfold add_comment.
      run. rewrite Hpid. run. rewrite Hp. discriminate. }
  rewrite (add_comment_run post_id payload w s pid p Hdb Hpid Hp) in Hrun.
  cbv zeta in Hrun. destruct (existsb _ (comment s)); [discriminate|].
  injection Hrun as <- _.
  cbn [serialize_comment comment_of CommentOut.post_id CommentOut.content
       CommentOut.author CommentOut.device_id Comment.post_id
       Comment.content Comment.author Comment.device_id].
  split; [reflexivity|]. split; [reflexivity|].
  split; [apply strip_trimmed|].
  split; [intros a Ha; apply (or_None_strip_clean _ _ Ha)|].
  split; [intros ->; reflexivity|].
  split; [intros ->; reflexivity|].
  split; [intros ->; reflexivity|].
  intros d Hd ->. destruct d; [congruence|reflexivity].
Qed.

(** X18.  Comments are not deduplicated: the same request sent twice
    (with two different generated ids, new to the collection) stores two
    comments with the same content, and the post counts two more. *)
Theorem add_comment_twice_stores_two w s post_id payload pid p :
  db w = Some s ->
  ObjectId_of_str post_id = Some pid ->
  find (by_id pid) (post s) = Some p ->
  ~ In (objectids w (issued w)) (map Comment._id (comment s)) ->
  ~ In (objectids w (S (issued w))) (map Comment._id (comment s)) ->
  objectids w (S (issued w)) <> objectids w (issued w) ->
  exists r1 w1 r2 w2 s2 p2,
    add_comment post_id payload w = (Return r1, w1) /\
    add_comment post_id payload w1 = (Return r2, w2) /\
    CommentOut.content r2 = CommentOut.content r1 /\
    db w2 = Some s2 /\
    comments_for s2 pid = comments_for s pid + 2 /\
    find (by_id pid) (post s2) = Some p2 /\
    Post.comments_count p2 = Post.comments_count p + 2.
Proof.
  intros Hdb Hpid Hp H1 H2 Hne.
  rewrite (add_comment_run post_id payload w s pid p Hdb Hpid Hp). cbv zeta.
  unfold Comment_Document in *.
  apply (existsb_by_id_false _ (comment s)) in H1.
  rewrite H1. eexists. eexists.
  match goal with
  | |- exists r2 w2 s2 p2, (_, ?w1) = _ /\ _ =>
      assert (Hdb1 : db w1 = Some
                (mkStore
                   (update_first (by_id pid)
                      (Post.inc_comments_count 1 (clock w (S (S (ticks w)))))
                      (post s))
                   (comment s ++
                    [comment_of payload pid (objectids w (issued w))
                       (clock w (ticks w)) (clock w (S (ticks w)))])
                   (vote s))) by reflexivity;
      pose proof (add_comment_run post_id payload w1 _ pid _ Hdb1 Hpid
                    (find_update_first _ (inc_comments_id 1 _) pid _ _ Hp))
        as Hrun2
  end.
  cbv zeta in Hrun2. cbn [post comment vote] in Hrun2.
  unfold Comment_Document in Hrun2.
  assert (Hex : existsb (@by_id _ Comment._id (objectids w (S (issued w))))
                  (comment s ++
                   [comment_of payload pid (objectids w (issued w))
                      (clock w (ticks w)) (clock w (S (ticks w)))])
                = false).
  { rewrite existsb_app. apply (existsb_by_id_false _ (comment s)) in H2.
    rewrite H2. cbn. unfold by_id. cbn.
    apply N.eqb_neq in Hne. rewrite N.eqb_sym, Hne. reflexivity. }
  cbn [after objectids issued Nat.add] in Hrun2. rewrite Hex in Hrun2.
  eexists. eexists. eexists. eexists.
  split; [reflexivity|]. split; [exact Hrun2|].
  split; [reflexivity|]. split; [reflexivity|]. split.
  - unfold comments_for. cbn [comment].
    rewrite !count_if_app. unfold count_if at 2 3. cbn.
    unfold by_post at 2 3. cbn. rewrite N.eqb_refl. cbn. lia.
  - split.
    + cbn [post]. apply find_update_first; [intros; reflexivity|].
      apply find_update_first; [intros; reflexivity|exact Hp].
    + cbn. lia.
Qed.

End StoredText.

(** ** Several devices *)

Section Devices.
Context {L : Lib}.
Variables (post_id : str) (pid : ObjectId).
Hypothesis Hpid : ObjectId_of_str post_id = Some pid.

Lemma toggle_each_appends devs : forall w s p,
  db w = Some s ->
  find (by_id pid) (post s) = Some p ->
  NoDup devs ->
  (forall d, In d devs -> find (by_post_device pid d) (vote s) = None) ->
  (forall j, (issued w <= j)%nat ->
             ~ In (objectids w j) (map Vote._id (vote s))) ->
  (forall j k, (issued w <= j < k)%nat -> objectids w j <> objectids w k) ->
  exists s' p' l,
    db (toggle_each post_id devs w) = Some s' /\
    find (by_id pid) (post s') = Some p' /\
    Post.votes_count p' = Post.votes_count p + Z.of_nat (List.length devs) /\
    vote s' = vote s ++ l /\
    map Vote.device_id l = devs /\
    (forall v, In v l -> Vote.post_id v = pid) /\
    comment s' = comment s.
Proof.
  induction devs as [|d ds IH]; intros w s p Hdb Hp Hnd Hnone Hfresh Hinj.
  - exists s, p, []. cbn. rewrite app_nil_r.
    split; [exact Hdb|]. split; [exact Hp|]. split; [lia|].
    split; [reflexivity|]. split; [reflexivity|].
    split; [intros v []|reflexivity].
  - cbn [toggle_each].
    rewrite (toggle_vote_run post_id (VoteToggle.mk d) w s pid p Hdb Hpid Hp).
    cbn [VoteToggle.device_id]. rewrite (Hnone d (or_introl eq_refl)).
    cbv zeta.
    pose proof (Hfresh (issued w) (le_n _)) as Hf0.
    apply (existsb_by_id_false _ (vote s)) in Hf0.
    unfold Vote_Document in *. rewrite Hf0. cbn [snd].
    inversion Hnd as [|? ? Hd_notin Hnd']; subst.
    match goal with
    | |- context [toggle_each post_id ds (after 3 1 (Some ?s1) w)] =>
        destruct (IH (after 3 1 (Some s1) w) s1
                    (Post.inc_votes_count 1 (clock w (S (S (ticks w)))) p))
          as [s' [p' [l [E [Hp' [Hc [Hv [Hl [Hlp Hcm]]]]]]]]]
    end.
    + reflexivity.
    + cbn [post]. apply find_update_first; [intros; reflexivity|exact Hp].
    + exact Hnd'.
    + intros d' Hd'. cbn [vote].
      rewrite (find_app_one _ _ _ (Hnone d' (or_intror Hd'))).
      unfold by_post_device. cbn.
      destruct (String.eqb_spec d d') as [->|_]; [contradiction|].
      rewrite andb_false_r. reflexivity.
    + intros j Hj. cbn [after objectids issued Nat.add vote] in *.
      rewrite map_app, in_app_iff. cbn. intros [Hin|[Heq|[]]].
      * apply (Hfresh j); [lia|exact Hin].
      * apply (Hinj (issued w) j); [lia|exact Heq].
    + intros j k Hjk. cbn [after objectids issued Nat.add] in *.
      apply Hinj. lia.
    + cbn [vote comment] in Hv, Hcm.
      eexists s', p', (_ :: l). split; [exact E|]. split; [exact Hp'|].
      split; [|split; [|split; [|split]]].
      * rewrite Hc. cbn [Post.inc_votes_count Post.votes_count List.length].
        lia.
      * rewrite Hv, <- app_assoc. reflexivity.
      * cbn. rewrite Hl. reflexivity.
      * intros v [<-|Hv']; [reflexivity|apply (Hlp v Hv')].
      * exact Hcm.
Qed.

(** X19.  Devices that each vote once are all counted: when the devices
    of [devs] are distinct, none of them holds a vote on the post, and the
    driver hands out ids that are new and never repeated, their toggles in a
    row add one Vote each and leave [votes_count] and the number of Votes on
    the post up by the number of devices. *)
Theorem distinct_devices_all_count devs w s p :
  db w = Some s ->
  find (by_id pid) (post s) = Some p ->
  NoDup devs ->
  (forall d, In d devs -> find (by_post_device pid d) (vote s) = None) ->
  (forall j, (issued w <= j)%nat ->
             ~ In (objectids w j) (map Vote._id (vote s))) ->
  (forall j k, (issued w <= j < k)%nat -> objectids w j <> objectids w k) ->
  exists s' p',
    db (toggle_each post_id devs w) = Some s' /\
    find (by_id pid) (post s') = Some p' /\
    Post.votes_count p' = Post.votes_count p + Z.of_nat (List.length devs) /\
    votes_for s' pid = votes_for s pid + Z.of_nat (List.length devs) /\
    (forall d, In d devs ->
       exists v, In v (vote s') /\ Vote.post_id v = pid /\
                 Vote.device_id v = d).
Proof.
  intros Hdb Hp Hnd Hnone Hfresh Hinj.
  destruct (toggle_each_appends devs w s p Hdb Hp Hnd Hnone Hfresh Hinj)
    as [s' [p' [l [E [Hp' [Hc [Hv [Hl [Hlp _]]]]]]]]].
  exists s', p'. split; [exact E|]. split; [exact Hp'|]. split; [exact Hc|].
  split.
  - unfold votes_for. rewrite Hv, count_if_app. f_equal.
    rewrite <- Hl, length_map. unfold count_if. f_equal. f_equal.
    clear Hl Hv. induction l as [|v l IHl]; [reflexivity|]. cbn.
    unfold vote_of_post at 1. rewrite (Hlp v (or_introl eq_refl)), N.eqb_refl.
    cbn. f_equal. apply IHl. intros v' Hv'. apply Hlp. right. exact Hv'.
  - intros d Hd. rewrite <- Hl in Hd. apply in_map_iff in Hd as [v [Ed Hv']].
    exists v. split; [rewrite Hv; apply in_app_iff; right; exact Hv'|].
    split; [apply (Hlp v Hv')|exact Ed].
Qed.

End Devices.

(** ** The further properties at work on concrete worlds *)

Lemma reachable_seeded_world : reachable (L:=hex_lib) seeded_world.
Proof.
  exists (world0 (Some empty_store)), [Startup].
  split; [reflexivity|]. unfold seeded_world, serve_all. cbn [fold_left].
  reflexivity.
Qed.

Lemma reachable_voted_world : reachable (L:=hex_lib) voted_world.
Proof.
  exists (world0 (Some empty_store)),
    [CreatePost (PostCreate.mk " Idea" " " None None);
     ToggleVote id_1 (VoteToggle.mk "phone")].
  split; reflexivity.
Qed.

Lemma get_post_finds_by_id_witness :
  db demo_world = Some demo_store /\
  ObjectId_of_str (Lib:=hex_lib) id_1 = Some 1%N /\
  unique_ids (post demo_store) /\
  get_post (L:=hex_lib) id_1 demo_world
  = (Return (serialize_post (L:=hex_lib) demo_post), demo_world) /\
  get_post (L:=hex_lib) "0000000000000000000000ff" demo_world
  = (Raise (HTTPException 404 "Post not found"), demo_world).
Proof.
  assert (H1 : db demo_world = Some demo_store) by reflexivity.
  assert (H2 : ObjectId_of_str (Lib:=hex_lib) id_1 = Some 1%N) by reflexivity.
  assert (H2' : ObjectId_of_str (Lib:=hex_lib) "0000000000000000000000ff"
                = Some 255%N) by reflexivity.
  assert (H3 : unique_ids (post demo_store)).
  { unfold unique_ids. cbn. constructor; [intros []|constructor]. }
  assert (H4 : In demo_post (post demo_store)) by (left; reflexivity).
  assert (H5 : ~ In 255%N (post_ids demo_store)).
  { cbn. intros [H|[]]. discriminate H. }
  exact (conj H1 (conj H2 (conj H3 (conj
    (proj1 (get_post_finds_by_id (L:=hex_lib) demo_world demo_store id_1 1%N
              H1 H2 H3) demo_post H4 eq_refl)
    (proj2 (get_post_finds_by_id (L:=hex_lib) demo_world demo_store
              "0000000000000000000000ff" 255%N H1 H2' H3) H5))))).
Defined.

Lemma unavailable_store_guarded_witness :
  db (world0 None) = None /\
  create_post (L:=hex_lib) (PostCreate.mk "Idea" "A tagline" None None)
    (world0 None)
  = (Raise (HTTPException 500 "Database not available"), world0 None) /\
  list_posts (L:=hex_lib) "week" "votes" (world0 None)
  = (Return [], world0 None).
Proof.
  assert (H1 : db (world0 None) = None) by reflexivity.
  destruct (unavailable_store_guarded (L:=hex_lib) (world0 None) H1)
    as [Hc [_ [Hl _]]].
  exact (conj H1 (conj (Hc _) (Hl _ _))).
Defined.

Lemma unavailable_store_unguarded_witness :
  db (world0 None) = None /\
  ObjectId_of_str (Lib:=hex_lib) id_1 = Some 1%N /\
  get_post (L:=hex_lib) "not-an-id" (world0 None)
  = (Raise TypeError, world0 None) /\
  list_comments (L:=hex_lib) id_1 (world0 None)
  = (Raise TypeError, world0 None).
Proof.
  assert (H1 : db (world0 None) = None) by reflexivity.
  assert (H2 : ObjectId_of_str (Lib:=hex_lib) id_1 = Some 1%N) by reflexivity.
  destruct (unavailable_store_unguarded (L:=hex_lib) (world0 None) H1)
    as [Hg Hc].
  exact (conj H1 (conj H2 (conj (Hg _) (proj1 (Hc id_1 1%N H2))))).
Defined.

Lemma http_errors_change_nothing_witness :
  add_comment (L:=hex_lib) "0000000000000000000000ff"
    (CommentCreate.mk "hello" None None) demo_world
  = (Raise (HTTPException 404 "Post not found"),
     snd (add_comment (L:=hex_lib) "0000000000000000000000ff"
            (CommentCreate.mk "hello" None None) demo_world)) /\
  snd (add_comment (L:=hex_lib) "0000000000000000000000ff"
         (CommentCreate.mk "hello" None None) demo_world)
  = demo_world.
Proof.
  assert (H1 : add_comment (L:=hex_lib) "0000000000000000000000ff"
                 (CommentCreate.mk "hello" None None) demo_world
               = (Raise (HTTPException 404 "Post not found"),
                  snd (add_comment (L:=hex_lib) "0000000000000000000000ff"
                         (CommentCreate.mk "hello" None None) demo_world)))
    by reflexivity.
  exact (conj H1
    (proj2 (proj2 (http_errors_change_nothing (L:=hex_lib) demo_world))
       _ _ _ _ _ H1)).
Defined.

Lemma startup_is_safe_and_seeds_once_witness :
  db demo_world = Some demo_store /\
  post demo_store <> [] /\
  db (snd (on_start demo_world)) = Some demo_store.
Proof.
  assert (H1 : db demo_world = Some demo_store) by reflexivity.
  assert (H2 : post demo_store <> []) by discriminate.
  exact (conj H1 (conj H2
    (proj1 (proj2 (startup_is_safe_and_seeds_once demo_world))
       demo_store H1 H2))).
Defined.

Lemma counters_never_negative_witness :
  db seeded_world = Some seeded_store /\
  (forall p, In p (post seeded_store) ->
     0 <= votes_for seeded_store (Post._id p) <= Post.votes_count p /\
     0 <= comments_for seeded_store (Post._id p) <= Post.comments_count p).
Proof.
  assert (H1 : db seeded_world = Some seeded_store)
    by (vm_compute; reflexivity).
  exact (conj H1 (counters_never_negative (L:=hex_lib) seeded_world
                    seeded_store reachable_seeded_world H1)).
Defined.

Lemma reachable_store_has_no_orphans_witness :
  db voted_world = Some voted_store /\
  NoDup (map Vote._id (vote voted_store)) /\
  (forall v, In v (vote voted_store) ->
     exists p, In p (post voted_store) /\ Post._id p = Vote.post_id v).
Proof.
  assert (H1 : db voted_world = Some voted_store)
    by (vm_compute; reflexivity).
  destruct (reachable_store_has_no_orphans (L:=hex_lib) voted_world
              voted_store reachable_voted_world H1) as [_ [Hv [_ [Hr _]]]].
  exact (conj H1 (conj Hv Hr)).
Defined.

Lemma posts_are_never_deleted_or_rewritten_witness :
  db voted_world = Some voted_store /\
  (forall p, In p (post voted_store) ->
     exists p',
       In p' (post (mkStore
                [Post.mk 1%N "Idea" "" None None 0 0
                   1700000000000 1700000000005] [] [])) /\
       same_content p p').
Proof.
  assert (H1 : db voted_world = Some voted_store)
    by (vm_compute; reflexivity).
  assert (H2 : store_ok voted_store)
    by (exact (reachable_ok voted_world voted_store
                 reachable_voted_world H1)).
  assert (H3 : db (serve_all (L:=hex_lib)
                     [ToggleVote id_1 (VoteToggle.mk "phone")] voted_world)
               = Some (mkStore
                         [Post.mk 1%N "Idea" "" None None 0 0
                            1700000000000 1700000000005] [] []))
    by (vm_compute; reflexivity).
  exact (conj H1 (posts_are_never_deleted_or_rewritten (L:=hex_lib)
                    [ToggleVote id_1 (VoteToggle.mk "phone")]
                    voted_world voted_store _ H1 H2 H3)).
Defined.

Lemma toggle_vote_touches_only_its_own_witness :
  db voted_world = Some voted_store /\
  unique_ids (vote voted_store) /\
  ObjectId_of_str (Lib:=hex_lib) id_1 = Some 1%N /\
  (forall v,
     Vote.post_id v <> 1%N \/ Vote.device_id v <> "tablet" ->
     (In v (vote (mkStore
              [Post.mk 1%N "Idea" "" None None 2 0
                 1700000000000 1700000000007]
              []
              [Vote.mk 2%N 1%N "phone" 1700000000002 1700000000003;
               Vote.mk 3%N 1%N "tablet" 1700000000005 1700000000006]))
      <-> In v (vote voted_store))).
Proof.
  assert (H1 : db voted_world = Some voted_store)
    by (vm_compute; reflexivity).
  assert (H2 : unique_ids (vote voted_store)).
  { vm_compute. constructor; [intros []|constructor]. }
  assert (H3 : ObjectId_of_str (Lib:=hex_lib) id_1 = Some 1%N)
    by reflexivity.
  assert (H4 : toggle_vote (L:=hex_lib) id_1 (VoteToggle.mk "tablet")
                 voted_world
               = (Return (VoteOut.mk true 2),
                  snd (toggle_vote (L:=hex_lib) id_1 (VoteToggle.mk "tablet")
                         voted_world))).
  { rewrite (surjective_pairing (toggle_vote _ _ _)) at 1.
    apply f_equal2; [vm_compute; reflexivity|reflexivity]. }
  assert (H5 : db (snd (toggle_vote (L:=hex_lib) id_1
                          (VoteToggle.mk "tablet") voted_world))
               = Some (mkStore
                         [Post.mk 1%N "Idea" "" None None 2 0
                            1700000000000 1700000000007]
                         []
                         [Vote.mk 2%N 1%N "phone"
                            1700000000002 1700000000003;
                          Vote.mk 3%N 1%N "tablet"
                            1700000000005 1700000000006]))
    by (vm_compute; reflexivity).
  exact (conj H1 (conj H2 (conj H3
    (proj1 (toggle_vote_touches_only_its_own (L:=hex_lib) voted_world
              voted_store id_1 (VoteToggle.mk "tablet") _ _ _ 1%N
              H1 H2 H3 H4 H5))))).
Defined.

Lemma toggle_vote_takes_vote_back_witness :
  db voted_world = Some voted_store /\
  ObjectId_of_str (Lib:=hex_lib) id_1 = Some 1%N /\
  In (Vote.mk 2%N 1%N "phone" 1700000000002 1700000000003)
     (vote voted_store) /\
  exists w' s',
    toggle_vote (L:=hex_lib) id_1 (VoteToggle.mk "phone") voted_world
    = (Return (VoteOut.mk false 0), w') /\
    db w' = Some s' /\
    (forall v, In v (vote s') <->
       In v (vote voted_store) /\
       v <> Vote.mk 2%N 1%N "phone" 1700000000002 1700000000003).
Proof.
  assert (H1 : db voted_world = Some voted_store)
    by (vm_compute; reflexivity).
  assert (H2 : store_ok voted_store)
    by (exact (reachable_ok voted_world voted_store
                 reachable_voted_world H1)).
  assert (H3 : ObjectId_of_str (Lib:=hex_lib) id_1 = Some 1%N)
    by reflexivity.
  assert (H4 : find (by_id 1%N) (post voted_store)
               = Some (Post.mk 1%N "Idea" "" None None 1 0
                         1700000000000 1700000000004))
    by (vm_compute; reflexivity).
  assert (H5 : In (Vote.mk 2%N 1%N "phone" 1700000000002 1700000000003)
                  (vote voted_store))
    by (vm_compute; left; reflexivity).
  destruct (toggle_vote_takes_vote_back (L:=hex_lib) voted_world voted_store
              id_1 (VoteToggle.mk "phone") 1%N _ _ H1 H2 H3 H4 H5
              eq_refl eq_refl) as [w' [s' [E [D [Hv _]]]]].
  refine (conj H1 (conj H3 (conj H5 _))). exists w', s'.
  exact (conj E (conj D Hv)).
Defined.

Lemma create_post_then_get_post_witness :
  db demo_world = Some demo_store /\
  ~ In (objectids demo_world (issued demo_world)) (post_ids demo_store) /\
  ObjectId_of_str (Lib:=hex_lib)
    (str_of_ObjectId (Lib:=hex_lib)
       (objectids demo_world (issued demo_world)))
  = Some (objectids demo_world (issued demo_world)) /\
  exists r w' r',
    create_post (L:=hex_lib) (PostCreate.mk "New" "One more" None None)
      demo_world = (Return r, w') /\
    get_post (L:=hex_lib) (PostOut.id r) w' = (Return r', w') /\
    same_post_fields r r'.
Proof.
  assert (H1 : db demo_world = Some demo_store) by reflexivity.
  assert (H2 : ~ In (objectids demo_world (issued demo_world))
                    (post_ids demo_store)).
  { cbn. intros [H|[]]. discriminate H. }
  assert (H3 : ObjectId_of_str (Lib:=hex_lib)
                 (str_of_ObjectId (Lib:=hex_lib)
                    (objectids demo_world (issued demo_world)))
               = Some (objectids demo_world (issued demo_world)))
    by (vm_compute; reflexivity).
  exact (conj H1 (conj H2 (conj H3
    (create_post_then_get_post (L:=hex_lib) demo_world demo_store
       (PostCreate.mk "New" "One more" None None) H1 H2 H3)))).
Defined.

Lemma add_comment_then_list_comments_witness :
  db demo_world = Some demo_store /\
  ObjectId_of_str (Lib:=hex_lib) id_1 = Some 1%N /\
  find (by_id 1%N) (post demo_store) = Some demo_post /\
  ~ In (objectids demo_world (issued demo_world))
       (map Comment._id (comment demo_store)) /\
  exists r w' rs,
    add_comment (L:=hex_lib) id_1 (CommentCreate.mk "first!" None None)
      demo_world = (Return r, w') /\
    list_comments (L:=hex_lib) id_1 w' = (Return rs, w') /\
    (exists r', In r' rs /\ same_comment_fields r r') /\
    Z.of_nat (List.length rs) = comments_for demo_store 1%N + 1.
Proof.
  assert (H1 : db demo_world = Some demo_store) by reflexivity.
  assert (H2 : ObjectId_of_str (Lib:=hex_lib) id_1 = Some 1%N) by reflexivity.
  assert (H3 : find (by_id 1%N) (post demo_store) = Some demo_post)
    by reflexivity.
  assert (H4 : ~ In (objectids demo_world (issued demo_world))
                    (map Comment._id (comment demo_store)))
    by (intros []).
  exact (conj H1 (conj H2 (conj H3 (conj H4
    (add_comment_then_list_comments (L:=hex_lib) demo_world demo_store id_1
       (CommentCreate.mk "first!" None None) 1%N demo_post H1 H2 H3 H4))))).
Defined.

Lemma create_post_then_list_posts_witness :
  db demo_world = Some demo_store /\
  ~ In (objectids demo_world (issued demo_world)) (post_ids demo_store) /\
  clock demo_world (S (S (ticks demo_world))) - timedelta_days 7
  <= clock demo_world (ticks demo_world) /\
  exists r w' rs,
    create_post (L:=hex_lib) (PostCreate.mk "New" "One more" None None)
      demo_world = (Return r, w') /\
    fst (list_posts (L:=hex_lib) "week" "latest" w') = Return rs /\
    exists r', In r' rs /\ same_post_fields r r'.
Proof.
  assert (H1 : db demo_world = Some demo_store) by reflexivity.
  assert (H2 : ~ In (objectids demo_world (issued demo_world))
                    (post_ids demo_store)).
  { cbn. intros [H|[]]. discriminate H. }
  assert (H3 : clock demo_world (S (S (ticks demo_world)))
               - timedelta_days 7
               <= clock demo_world (ticks demo_world))
    by (vm_compute; discriminate).
  exact (conj H1 (conj H2 (conj H3
    (create_post_then_list_posts (L:=hex_lib) demo_world demo_store
       (PostCreate.mk "New" "One more" None None) "week" "latest"
       H1 H2 H3)))).
Defined.

Lemma list_posts_lists_each_post_once_witness :
  db seeded_world = Some seeded_store /\
  exists items,
    fst (list_posts (L:=hex_lib) "all" "comments" seeded_world)
    = Return (map (serialize_post (L:=hex_lib)) items) /\
    Permutation items (post seeded_store).
Proof.
  assert (H1 : db seeded_world = Some seeded_store)
    by (vm_compute; reflexivity).
  destruct (list_posts_lists_each_post_once (L:=hex_lib) seeded_world
              seeded_store "all" "comments" H1) as [items [E [_ [_ Hall]]]].
  assert (Hw : "all" <> "week") by discriminate.
  assert (Hm : "all" <> "month") by discriminate.
  refine (conj H1 _). exists items. exact (conj E (Hall Hw Hm)).
Defined.

Lemma create_post_stores_clean_text_witness :
  db demo_world = Some demo_store /\
  create_post (L:=hex_lib)
    (PostCreate.mk "  Hi " " " (Some "  ") (Some " http://x.y "))
    demo_world
  = (Return (PostOut.mk "000000000000000000000002" "Hi" "" None
               (Some "http://x.y") 0 0 "1700000000000" "1700000000001"),
     after 2 1
       (Some (mkStore
                [demo_post;
                 Post.mk 2%N "Hi" "" None (Some "http://x.y") 0 0
                   1700000000000 1700000000001] [] []))
       demo_world) /\
  exists p,
    PostOut.mk "000000000000000000000002" "Hi" "" None
      (Some "http://x.y") 0 0 "1700000000000" "1700000000001"
    = serialize_post (L:=hex_lib) p /\
    trimmed (Post.title p) /\
    (forall u, Post.url p = Some u -> u <> "" /\ trimmed u).
Proof.
  assert (H1 : db demo_world = Some demo_store) by reflexivity.
  assert (H2 : create_post (L:=hex_lib)
                 (PostCreate.mk "  Hi " " " (Some "  ") (Some " http://x.y "))
                 demo_world
               = (Return (PostOut.mk "000000000000000000000002" "Hi" "" None
                            (Some "http://x.y") 0 0
                            "1700000000000" "1700000000001"),
                  after 2 1
                    (Some (mkStore
                             [demo_post;
                              Post.mk 2%N "Hi" "" None (Some "http://x.y") 0 0
                                1700000000000 1700000000001] [] []))
                    demo_world))
    by reflexivity.
  destruct (create_post_stores_clean_text (L:=hex_lib) demo_world demo_store
              _ _ _ H1 H2) as (p & _ & Er & Ht & _ & _ & _ & _ & Hu).
  refine (conj H1 (conj H2 _)). exists p. exact (conj Er (conj Ht Hu)).
Defined.

Lemma add_comment_normalises_fields_witness :
  db demo_world = Some demo_store /\
  fst (add_comment (L:=hex_lib) id_1
         (CommentCreate.mk " ok " (Some "  ") (Some " tab "))
         demo_world)
  = Return (CommentOut.mk "000000000000000000000002" 1%N None "ok"
              (Some " tab ") "1700000000000" "1700000000001") /\
  ObjectId_of_str (Lib:=hex_lib) id_1 = Some 1%N /\
  trimmed "ok".
Proof.
  assert (H1 : db demo_world = Some demo_store) by reflexivity.
  assert (H2 : add_comment (L:=hex_lib) id_1
                 (CommentCreate.mk " ok " (Some "  ") (Some " tab "))
                 demo_world
               = (Return (CommentOut.mk "000000000000000000000002" 1%N None
                            "ok" (Some " tab ")
                            "1700000000000" "1700000000001"),
                  snd (add_comment (L:=hex_lib) id_1
                         (CommentCreate.mk " ok " (Some "  ") (Some " tab "))
                         demo_world))).
  { rewrite (surjective_pairing (add_comment _ _ _)) at 1.
    apply f_equal2; [vm_compute; reflexivity|reflexivity]. }
  destruct (add_comment_normalises_fields (L:=hex_lib) demo_world demo_store
              _ _ _ _ H1 H2) as (Hp & _ & Ht & _).
  refine (conj H1 (conj _ (conj Hp Ht))).
  rewrite H2. reflexivity.
Defined.

Lemma add_comment_twice_stores_two_witness :
  db demo_world = Some demo_store /\
  ObjectId_of_str (Lib:=hex_lib) id_1 = Some 1%N /\
  find (by_id 1%N) (post demo_store) = Some demo_post /\
  objectids demo_world (S (issued demo_world))
  <> objectids demo_world (issued demo_world) /\
  exists r1 w1 r2 w2 s2 p2,
    add_comment (L:=hex_lib) id_1 (CommentCreate.mk "+1" None (Some "phone"))
      demo_world = (Return r1, w1) /\
    add_comment (L:=hex_lib) id_1 (CommentCreate.mk "+1" None (Some "phone"))
      w1 = (Return r2, w2) /\
    CommentOut.content r2 = CommentOut.content r1 /\
    db w2 = Some s2 /\
    comments_for s2 1%N = comments_for demo_store 1%N + 2 /\
    find (by_id 1%N) (post s2) = Some p2 /\
    Post.comments_count p2 = Post.comments_count demo_post + 2.
Proof.
  assert (H1 : db demo_world = Some demo_store) by reflexivity.
  assert (H2 : ObjectId_of_str (Lib:=hex_lib) id_1 = Some 1%N) by reflexivity.
  assert (H3 : find (by_id 1%N) (post demo_store) = Some demo_post)
    by reflexivity.
  assert (H4 : ~ In (objectids demo_world (issued demo_world))
                    (map Comment._id (comment demo_store)))
    by (intros []).
  assert (H5 : ~ In (objectids demo_world (S (issued demo_world)))
                    (map Comment._id (comment demo_store)))
    by (intros []).
  assert (H6 : objectids demo_world (S (issued demo_world))
               <> objectids demo_world (issued demo_world))
    by discriminate.
  exact (conj H1 (conj H2 (conj H3 (conj H6
    (add_comment_twice_stores_two (L:=hex_lib) demo_world demo_store id_1
       (CommentCreate.mk "+1" None (Some "phone")) 1%N demo_post
       H1 H2 H3 H4 H5 H6))))).
Defined.

Lemma distinct_devices_all_count_witness :
  ObjectId_of_str (Lib:=hex_lib) id_1 = Some 1%N /\
  db demo_world = Some demo_store /\
  find (by_id 1%N) (post demo_store) = Some demo_post /\
  NoDup ["phone"; "tablet"; "laptop"] /\
  exists s' p',
    db (toggle_each (L:=hex_lib) id_1 ["phone"; "tablet"; "laptop"]
          demo_world) = Some s' /\
    find (by_id 1%N) (post s') = Some p' /\
    Post.votes_count p' = Post.votes_count demo_post + 3 /\
    votes_for s' 1%N = votes_for demo_store 1%N + 3.
Proof.
  assert (H0 : ObjectId_of_str (Lib:=hex_lib) id_1 = Some 1%N) by reflexivity.
  assert (H1 : db demo_world = Some demo_store) by reflexivity.
  assert (H2 : find (by_id 1%N) (post demo_store) = Some demo_post)
    by reflexivity.
  assert (H3 : NoDup ["phone"; "tablet"; "laptop"]).
  { repeat constructor; cbn; intuition discriminate. }
  assert (H4 : forall d, In d ["phone"; "tablet"; "laptop"] ->
                 find (by_post_device 1%N d) (vote demo_store) = None)
    by (intros d _; reflexivity).
  assert (H5 : forall j, (issued demo_world <= j)%nat ->
                 ~ In (objectids demo_world j)
                      (map Vote._id (vote demo_store)))
    by (intros j _ []).
  assert (H6 : forall j k, (issued demo_world <= j < k)%nat ->
                 objectids demo_world j <> objectids demo_world k).
  { intros j k Hjk E. change (N.of_nat (S j) = N.of_nat (S k)) in E.
    apply Nnat.Nat2N.inj in E. lia. }
  destruct (distinct_devices_all_count (L:=hex_lib) id_1 1%N H0
              ["phone"; "tablet"; "laptop"] demo_world demo_store demo_post
              H1 H2 H3 H4 H5 H6) as (s' & p' & E & Hp & Hc & Hv & _).
  refine (conj H0 (conj H1 (conj H2 (conj H3 _)))). exists s', p'.
  exact (conj E (conj Hp (conj Hc Hv))).
Defined.
